(** * ephemeris [shed_tools.py]: the install orchestration core

    A shallow embedding of [src/ephemeris/shed_tools.py] and the properties
    of its flattening, filtering, resolution and install-driver code.

    Python dictionaries are finite maps from key strings to values.  The
    dictionaries the program passes around and mutates in place (the tool
    descriptions) live in a heap and are handled through their addresses, so
    that two list cells holding the same dictionary object really share it.
    Galaxy, the Tool Shed and the clock are reached through the [Galaxy]
    interface; every call made through it is appended to a call log. *)

From Stdlib Require Import ZArith Lia.
From stdpp Require Import base option list strings gmap.

Local Open Scope string_scope.
Local Open Scope list_scope.
Local Open Scope Z_scope.

(** ** Values, dictionaries and exceptions *)

(** The Python values that occur in tool descriptions: [None], strings and
    lists of strings (the [revisions] entry). *)
Inductive value :=
  | VNone
  | VStr (s : string)
  | VList (l : list string).

#[global] Instance value_eq_dec : EqDecision value.
Proof. solve_decision. Defined.

(** A dictionary with string keys. *)
Abbreviation dict := (gmap string value).

(** A dictionary literal, with its keys in the order they are written. *)
Abbreviation record := (list (string * value)).

(** The exceptions the module raises or lets through. *)
Inductive exn :=
  | ValueError (msg : string)
  | KeyError (msg : string)
  | NameError (name : string)
  | TypeError
  | AttributeError
  | ConnectionError (message body : string).

(** What can stop the model without being a behaviour of the program: the
    iteration bound of [wait_for_install] was reached, or an address does
    not denote a dictionary of the heap. *)
Inductive artefact := OutOfFuel | Dangling.

Inductive outcome (A : Type) :=
  | Ok (a : A)
  | Raise (e : exn)
  | Abort (a : artefact).
Arguments Ok {A} a.
Arguments Raise {A} e.
Arguments Abort {A} a.

Definition outcome_bind {A B} (r : outcome A) (k : A → outcome B) : outcome B :=
  match r with
  | Ok a => k a
  | Raise e => Raise e
  | Abort a => Abort a
  end.

(** ** Python primitives on values and dictionaries *)

(** [d.get(k)] and [d.get(k, dflt)]. *)
Definition py_get_default (d : dict) (k : string) (dflt : value) : value :=
  default dflt (d !! k).
Definition py_get (d : dict) (k : string) : value := py_get_default d k VNone.

(** [d[k]]. *)
Definition py_getitem (d : dict) (k : string) : outcome value :=
  match d !! k with
  | Some v => Ok v
  | None => Raise (KeyError k)
  end.

(** [needle in hay] on strings: [needle] occurs in [hay]. *)
Fixpoint contains (needle hay : string) : bool :=
  String.prefix needle hay ||
  match hay with
  | EmptyString => false
  | String _ hay' => contains needle hay'
  end.

(** [x in c].  A string container takes a string on the left, a list tests
    membership by [==], and [None] is not a container. *)
Definition py_in (x c : value) : outcome bool :=
  match c with
  | VStr hay =>
      match x with
      | VStr needle => Ok (contains needle hay)
      | _ => Raise TypeError
      end
  | VList l => Ok (bool_decide (x ∈ VStr <$> l))
  | VNone => Raise TypeError
  end.

(** Truth value of an object. *)
Definition truthy (v : value) : bool :=
  match v with
  | VNone => false
  | VStr s => negb (String.eqb s "")
  | VList l => negb (bool_decide (l = []))
  end.

Fixpoint chars (s : string) : list string :=
  match s with
  | EmptyString => []
  | String c s' => String c EmptyString :: chars s'
  end.

(** The elements [for x in v] runs through. *)
Definition py_iter (v : value) : outcome (list value) :=
  match v with
  | VList l => Ok (VStr <$> l)
  | VStr s => Ok (VStr <$> chars s)
  | VNone => Raise TypeError
  end.

(** [s.endswith(suffix)]. *)
Definition endswith (s suffix : string) : bool :=
  String.prefix (String.rev suffix) (String.rev s).

(** The keys of a dictionary literal, which is what [lst += d] appends to a
    list when [d] is a dictionary.  They come in the order of the literal,
    the order of iteration since Python 3.7; no property below depends on
    the order. *)
Definition dict_keys (r : record) : list string := r.*1.

(** ** [the_same_repository] *)

Definition the_same_repository (repo_1_info repo_2_info : dict) : outcome bool :=
  if decide (py_get repo_1_info "changeset_revision" = py_get repo_2_info "changeset_revision") then
    if decide (py_get repo_1_info "name" = py_get repo_2_info "name") then
      if decide (py_get repo_1_info "owner" = py_get repo_2_info "owner") then
        let t1ts := py_get_default repo_1_info "tool_shed" (py_get_default repo_1_info "tool_shed_url" VNone) in
        let t2ts := py_get_default repo_2_info "tool_shed" (py_get_default repo_2_info "tool_shed_url" VNone) in
        outcome_bind (py_in t1ts t2ts) (λ b1,
          if b1 then Ok true
          else outcome_bind (py_in t2ts t1ts) (λ b2,
            if b2 then Ok true else Ok false))
      else Ok false
    else Ok false
  else Ok false.

(** ** [format_tool_shed_url] *)

Definition format_tool_shed_url (tool_shed_url : value) : outcome value :=
  match tool_shed_url with
  | VStr s =>
      let s1 := if endswith s "/" then s else s +:+ "/" in
      let s2 := if String.prefix "http" s1 then s1 else "https://" +:+ s1 in
      Ok (VStr s2)
  | _ => Raise AttributeError
  end.

(** ** The collaborators *)

(** What [tool_shed_client.install_repository_revision] returns. *)
Inductive response :=
  | RDict (d : dict)
  | ROther.

(** The interface of the Galaxy instance, the Tool Shed and the clock.
    [World] is everything outside the interpreter.  Times are in
    microseconds, the resolution of [datetime]. *)
Class Galaxy (World : Type) := {
  (** [dt.datetime.now()] *)
  now : World → Z;
  (** [time.sleep(seconds)] *)
  sleep : Z → World → World;
  (** [tool_shed_client.install_repository_revision( **kwargs )]: a response,
      or a [ConnectionError] with its message and body, two strings *)
  ts_install_repository_revision : dict → World → World * (response + string * string);
  (** [tool_shed_client.get_repositories()] *)
  ts_get_repositories : World → World * (list dict + string * string);
  (** [GiToToolYaml(gi, ...).tool_list.get("tools")] *)
  gi_tool_list : World → World * list dict;
  (** [ToolShedInstance(url).repositories.get_ordered_installable_revisions(name, owner)] *)
  get_ordered_installable_revisions : value → value → value → World → World * list string;
}.

(** The calls made through the interface, each with its answer, in the
    order they are made. *)
Inductive event :=
  | EvInstall (kwargs : dict) (answer : response + string * string)
  | EvGetRepositories (answer : list dict + string * string)
  | EvToolList (answer : list dict)
  | EvRevisions (url name owner : value) (answer : list string)
  | EvSleep (seconds : Z).

(** Addresses of heap dictionaries. *)
Abbreviation loc := nat.

(** The heap of mutable dictionaries, the outside world and the call log. *)
Record state (World : Type) := State {
  heap : list dict;
  world : World;
  calls : list event;
}.
Arguments State {World} heap world calls.
Arguments heap {World} s.
Arguments world {World} s.
Arguments calls {World} s.

(** A computation: it transforms the state and returns, raises or aborts.
    The state survives an exception. *)
Definition M (World : Type) (A : Type) : Type := state World → state World * outcome A.

#[global] Instance M_ret {World} : MRet (M World) := λ A a st, (st, Ok a).
#[global] Instance M_bind {World} : MBind (M World) := λ A B k m st,
  match m st with
  | (st', Ok a) => k a st'
  | (st', Raise e) => (st', Raise e)
  | (st', Abort a) => (st', Abort a)
  end.

Definition raise {World A} (e : exn) : M World A := λ st, (st, Raise e).
Definition lift {World A} (r : outcome A) : M World A := λ st, (st, r).

(** [try: body  except ConnectionError as e: handler(e.message, e.body)] *)
Definition try_except_ConnectionError {World A}
    (body : M World A) (handler : string → string → M World A) : M World A :=
  λ st, match body st with
        | (st', Raise (ConnectionError message body)) => handler message body st'
        | r => r
        end.

(** [try: body  except KeyError as e: handler(e.message)] *)
Definition try_except_KeyError {World A}
    (body : M World A) (handler : string → M World A) : M World A :=
  λ st, match body st with
        | (st', Raise (KeyError msg)) => handler msg st'
        | r => r
        end.

Section Program.
Context {World : Type} `{!Galaxy World}.
Implicit Types (st : state World) (d : dict) (l : loc).
Local Abbreviation M := (M World).

(** *** Heap and world accesses *)

Definition deref (l : loc) : M dict :=
  λ st, match heap st !! l with
        | Some d => (st, Ok d)
        | None => (st, Abort Dangling)
        end.

Definition store (l : loc) (d : dict) : M unit :=
  λ st, match heap st !! l with
        | Some _ => (State (<[l:=d]> (heap st)) (world st) (calls st), Ok tt)
        | None => (st, Abort Dangling)
        end.

(** A new dictionary object. *)
Definition alloc (d : dict) : M loc :=
  λ st, (State (heap st ++ [d]) (world st) (calls st), Ok (length (heap st))).

Definition get_now : M Z := λ st, (st, Ok (now (world st))).

Definition time_sleep (seconds : Z) : M unit :=
  λ st, (State (heap st) (sleep seconds (world st)) (calls st ++ [EvSleep seconds]), Ok tt).

Definition call_install (kwargs : dict) : M response :=
  λ st, let '(w, r) := ts_install_repository_revision kwargs (world st) in
        (State (heap st) w (calls st ++ [EvInstall kwargs r]),
         match r with
         | inl resp => Ok resp
         | inr (message, body) => Raise (ConnectionError message body)
         end).

Definition call_get_repositories : M (list dict) :=
  λ st, let '(w, r) := ts_get_repositories (world st) in
        (State (heap st) w (calls st ++ [EvGetRepositories r]),
         match r with
         | inl repos => Ok repos
         | inr (message, body) => Raise (ConnectionError message body)
         end).

Definition call_tool_list : M (list dict) :=
  λ st, let '(w, tools) := gi_tool_list (world st) in
        (State (heap st) w (calls st ++ [EvToolList tools]), Ok tools).

Definition call_revisions (url name owner : value) : M (list string) :=
  λ st, let '(w, revs) := get_ordered_installable_revisions url name owner (world st) in
        (State (heap st) w (calls st ++ [EvRevisions url name owner revs]), Ok revs).

(** [for x in xs: acc = body(x, acc)] *)
Fixpoint for_each {A S} (xs : list A) (body : A → S → M S) (acc : S) : M S :=
  match xs with
  | [] => mret acc
  | x :: xs' => acc' ← body x acc; for_each xs' body acc'
  end.

(** [[f(x) for x in xs]] *)
Fixpoint list_comprehension {A B} (f : A → M B) (xs : list A) : M (list B) :=
  match xs with
  | [] => mret []
  | x :: xs' => y ← f x; ys ← list_comprehension f xs'; mret (y :: ys)
  end.

(** *** [_flatten_repo_info] *)

Definition _flatten_repo_info (repositories : list loc) : M (list loc) :=
  for_each repositories (λ repo_info flattened_list,
    d ← deref repo_info;
    match d !! "revisions" with
    | Some revisions =>
        store repo_info (delete "revisions" d) ;;
        revs ← lift (py_iter revisions);
        for_each revs (λ revision flattened_list,
          d' ← deref repo_info;
          store repo_info (<["changeset_revision" := revision]> d') ;;
          mret (flattened_list ++ [repo_info])) flattened_list
    | None => mret (flattened_list ++ [repo_info])
    end) [].

(** *** [InstallToolManager.installed_repos]

    The property fetches the tool list anew each time it is read; the
    dictionaries it delivers are new objects. *)
Definition installed_repos : M (list loc) :=
  tools ← call_tool_list;
  installed_tools ← list_comprehension alloc tools;
  _flatten_repo_info installed_tools.

(** *** [InstallToolManager.filter_installed_repos]

    The result is the pair [(not_installed_repos, already_installed_repos)]. *)
Definition filter_installed_repos (repos : list loc) : M (list loc * list loc) :=
  for_each repos (λ repo '(not_installed_repos, already_installed_repos),
    installed ← installed_repos;
    for_each installed (λ installed_tool '(not_installed_repos, already_installed_repos),
      d1 ← deref installed_tool;
      d2 ← deref repo;
      same ← lift (the_same_repository d1 d2);
      if (same : bool) then mret (not_installed_repos, already_installed_repos ++ [repo])
      else mret (not_installed_repos ++ [repo], already_installed_repos))
      (not_installed_repos, already_installed_repos))
    ([], []).

(** *** [complete_repo_information]

    The new dictionary [repo] is entered in the heap when it is complete;
    when the function raises, [repo] is unreachable.  The message of the
    [KeyError] for a missing panel section is given without the name of the
    tool. *)
Definition complete_repo_information
    (tool : loc) (default_toolshed_url : string) (require_tool_panel_info : bool) : M loc :=
  t ← deref tool;
  name ← lift (py_getitem t "name");
  owner ← lift (py_getitem t "owner");
  let tool_panel_section_id := py_get t "tool_panel_section_id" in
  let tool_panel_section_label := py_get t "tool_panel_section_label" in
  no_section ← lift (
    if require_tool_panel_info
       && bool_decide (tool_panel_section_id = VNone)
       && bool_decide (tool_panel_section_label = VNone)
    then outcome_bind (py_in (VStr "data_manager") name) (λ b, Ok (negb b))
    else Ok false);
  if (no_section : bool) then
    raise (KeyError "Either tool_panel_section_id or tool_panel_section_name must be defined for tool")
  else
    tool_shed_url ← lift (format_tool_shed_url
                            (py_get_default t "tool_shed_url" (VStr default_toolshed_url)));
    alloc (<["changeset_revision" := py_get_default t "changeset_revision" VNone]>
           (<["tool_shed_url" := tool_shed_url]>
           (<["tool_panel_section_label" := tool_panel_section_label]>
           (<["tool_panel_section_id" := tool_panel_section_id]>
           (<["owner" := owner]>
           (<["name" := name]> ∅)))))).

(** *** [get_changeset_revisions]

    [None] stands for Python's [None], [Some repository] for the repository
    handed back. *)
Definition get_changeset_revisions (repository : loc) (force_latest_revision : bool)
    : M (option loc) :=
  d ← deref repository;
  if bool_decide (py_get d "changeset_revision" = VNone) || force_latest_revision then
    url ← lift (py_getitem d "tool_shed_url");
    name ← lift (py_getitem d "name");
    owner ← lift (py_getitem d "owner");
    installable_revisions ← call_revisions url name owner;
    match last installable_revisions with
    | None => mret None
    | Some latest =>
        store repository (<["changeset_revision" := VStr latest]> d) ;;
        mret (Some repository)
    end
  else mret (Some repository).

(** *** The logging helpers

    Writing to the log changes nothing the program reads; what remains of a
    helper is the evaluation of the arguments of the log call, which can
    raise, and the dictionary it returns. *)
Definition log_repository_install_error
    (repository : dict) (start : Z) (msg : value) (log : bool) : record :=
  [("name", py_get_default repository "name" (VStr ""));
   ("owner", py_get_default repository "owner" (VStr ""));
   ("revision", py_get_default repository "changeset_revision" (VStr ""));
   ("error", msg)].

Definition log_repository_install_success
    (repository : dict) (start : Z) (log : bool) : outcome record :=
  outcome_bind (if log then
                  outcome_bind (py_getitem repository "name") (λ _,
                  py_getitem repository "changeset_revision")
                else Ok VNone) (λ _,
  outcome_bind (py_getitem repository "name") (λ name,
  outcome_bind (py_getitem repository "owner") (λ owner,
  outcome_bind (py_getitem repository "changeset_revision") (λ revision,
  Ok [("name", name); ("owner", owner); ("revision", revision)])))).

Definition log_repository_install_skip
    (repository : dict) (counter total_num_repositories : nat) (log : bool) : outcome record :=
  outcome_bind (if log then
                  outcome_bind (py_getitem repository "name") (λ _,
                  py_getitem repository "changeset_revision")
                else Ok VNone) (λ _,
  outcome_bind (py_getitem repository "name") (λ name,
  outcome_bind (py_getitem repository "owner") (λ owner,
  outcome_bind (py_getitem repository "changeset_revision") (λ revision,
  Ok [("name", name); ("owner", owner); ("changeset_revision", revision)])))).

(** [log.debug] is looked up before the arguments are evaluated: without a
    logger the call raises [AttributeError]. *)
Definition log_repository_install_start
    (repository : dict) (counter total_num_repositories : nat) (installation_start : Z)
    (log : bool) : outcome unit :=
  if log then
    outcome_bind (py_getitem repository "name") (λ _,
    outcome_bind (py_getitem repository "owner") (λ _,
    outcome_bind (py_getitem repository "tool_panel_section_id") (λ section_id,
    outcome_bind (if truthy section_id then Ok section_id
                  else py_getitem repository "tool_panel_section_label") (λ _,
    outcome_bind (py_getitem repository "changeset_revision") (λ _,
    Ok tt)))))
  else Raise AttributeError.

(** *** [InstallToolManager.install_repository_revision] *)
Definition install_repository_revision (repository : loc) (log : bool) : M response :=
  d ← deref repository;
  label ← lift (py_getitem d "tool_panel_section_label");
  store repository (delete "tool_panel_section_label" d) ;;
  d ← deref repository;
  store repository (<["new_tool_panel_section_label" := label]> d) ;;
  kwargs ← deref repository;
  response ← call_install kwargs;
  match response with
  | RDict r =>
      if bool_decide (py_get_default r "status" VNone = VStr "ok") && log
      then d ← deref repository; lift (py_getitem d "name") ;; mret response
      else mret response
  | ROther => mret response
  end.

(** *** [InstallToolManager.wait_for_install] *)

(** The [for installing_repo in installed_repo_list] loop: [Some b] when it
    executes [return b], [None] when it runs to its end. *)
Fixpoint wait_for_install_scan (repository : loc) (installed_repo_list : list dict)
    : M (option bool) :=
  match installed_repo_list with
  | [] => mret None
  | installing_repo :: rest =>
      d ← deref repository;
      name ← lift (py_getitem d "name");
      name' ← lift (py_getitem installing_repo "name");
      same ← (if bool_decide (name = name') then
                owner' ← lift (py_getitem installing_repo "owner");
                owner ← lift (py_getitem d "owner");
                mret (bool_decide (owner' = owner))
              else mret false);
      if (same : bool) then
        status ← lift (py_getitem installing_repo "status");
        if bool_decide (status = VStr "Installed") then mret (Some true)
        else if bool_decide (status = VStr "Error") then mret (Some false)
        else time_sleep 10 ;; wait_for_install_scan repository rest
      else wait_for_install_scan repository rest
  end.

(** One pass through the body of the [while] loop. *)
Definition wait_for_install_poll (repository : loc) (log : bool) : M (option bool) :=
  try_except_ConnectionError
    (installed_repo_list ← call_get_repositories;
     wait_for_install_scan repository installed_repo_list)
    (λ _ _, time_sleep 10 ;; mret None).

(** The [while] loop, which [fuel] bounds. *)
Fixpoint wait_for_install_loop (fuel : nat) (repository : loc) (log : bool)
    (timeout : Z) (start : Z) : M bool :=
  match fuel with
  | O => λ st, (st, Abort OutOfFuel)
  | S fuel' =>
      t ← get_now;
      if t - start <? timeout * 1000000 then
        r ← wait_for_install_poll repository log;
        match r with
        | Some b => mret b
        | None => wait_for_install_loop fuel' repository log timeout start
        end
      else mret false
  end.

Definition wait_for_install (fuel : nat) (repository : loc) (log : bool) (timeout : Z)
    : M bool :=
  start ← get_now;
  wait_for_install_loop fuel repository log timeout start.

(** *** [InstallToolManager.install_tools] *)

(** The local variables of [install_tools] that change while it runs.  The
    three result lists are extended with [lst += d] where [d] is the
    dictionary a logging helper returns, which appends the keys of [d]: the
    lists hold strings.  [start] is the variable the nested function
    [set_defaults_in_repo_information] shares with [install_tools]; it is
    unbound ([None]) until the install loop assigns it. *)
Record locals := Locals {
  installed_repositories : list string;
  skipped_repositories : list string;
  errored_repositories : list string;
  counter : nat;
  start : option Z;
}.

Definition default_err_msg : string :=
  "All repositories that you are attempting to install have been previously installed.".

(** The nested function [set_defaults_in_repo_information], with the
    variables it takes from the enclosing call as arguments. *)
Definition set_defaults_in_repo_information
    (start : option Z) (default_toolshed : string) (force_latest_revision : bool)
    (repository : loc) : M (option loc) :=
  complete_repo ←
    try_except_KeyError
      (complete_repo ← complete_repo_information repository default_toolshed true;
       mret (Some complete_repo))
      (λ message,
         match start with
         | None => raise (NameError "start")
         | Some start =>
             d ← deref repository;
             let _ := log_repository_install_error d start (VStr message) false in
             mret None
         end);
  match complete_repo with
  | None => mret None
  | Some complete_repo => get_changeset_revisions complete_repo force_latest_revision
  end.

(** [[repo for repo in repository_list_with_none if repo is not None]] *)
Definition not_none (repository_list_with_none : list (option loc)) : list loc :=
  omap id repository_list_with_none.

(** The body of [for skipped_repo in already_installed_repos]. *)
Definition skip_step (total_num_repositories : nat) (log : bool)
    (skipped_repo : loc) (v : locals) : M locals :=
  let counter := S (counter v) in
  d ← deref skipped_repo;
  skipped ← lift (log_repository_install_skip d counter total_num_repositories log);
  mret (Locals (installed_repositories v)
               (skipped_repositories v ++ dict_keys skipped)
               (errored_repositories v)
               counter (start v)).

(** The body of [for repository in not_installed_repos]. *)
Definition install_step (fuel : nat) (total_num_repositories : nat)
    (installation_start : Z) (log : bool) (repository : loc) (v : locals) : M locals :=
  let counter := S (counter v) in
  start ← get_now;
  d ← deref repository;
  lift (log_repository_install_start d counter total_num_repositories installation_start log) ;;
  try_except_ConnectionError
    (install_repository_revision repository false ;;
     d ← deref repository;
     installed ← lift (log_repository_install_success d start log);
     mret (Locals (installed_repositories v ++ dict_keys installed)
                  (skipped_repositories v) (errored_repositories v)
                  counter (Some start)))
    (λ e_message e_body,
       if contains default_err_msg e_body then
         (if log then
            d ← deref repository;
            lift (py_getitem d "name") ;;
            lift (py_getitem d "changeset_revision") ;;
            mret tt
          else raise AttributeError) ;;
         mret (Locals (installed_repositories v) (skipped_repositories v)
                      (errored_repositories v) counter (Some start))
       else if contains "504" e_message then
         (if log then d ← deref repository; lift (py_getitem d "name") ;; mret tt
          else raise AttributeError) ;;
         success ← wait_for_install fuel repository log 3600;
         d ← deref repository;
         if (success : bool) then
           installed ← lift (log_repository_install_success d start log);
           mret (Locals (installed_repositories v ++ dict_keys installed)
                        (skipped_repositories v) (errored_repositories v)
                        counter (Some start))
         else
           let errored := log_repository_install_error d start (VStr e_body) log in
           mret (Locals (installed_repositories v) (skipped_repositories v)
                        (errored_repositories v ++ dict_keys errored)
                        counter (Some start))
       else
         d ← deref repository;
         let errored := log_repository_install_error d start (VStr e_body) log in
         mret (Locals (installed_repositories v) (skipped_repositories v)
                      (errored_repositories v ++ dict_keys errored)
                      counter (Some start))).

(** One of the three [log.info] lines of the summary: the argument
    [[(t['name'], t.get('changeset_revision')) for t in lst]] subscripts
    each element of [lst] with a string, and the elements are strings. *)
Definition log_result_line (lst : list string) : outcome unit :=
  match lst with
  | [] => Ok tt
  | _ :: _ => Raise TypeError
  end.

(** The summary, lines 163 to 186. *)
Definition log_results (log : bool) (v : locals) : outcome unit :=
  if log then
    outcome_bind (log_result_line (installed_repositories v)) (λ _,
    outcome_bind (log_result_line (skipped_repositories v)) (λ _,
    log_result_line (errored_repositories v)))
  else Raise AttributeError.

(** What [install_tools] is written to return. *)
Record InstallResults := {
  res_installed_repositories : list string;
  res_errored_repositories : list string;
  res_skipped_repositories : list string;
}.

(** The part of [install_tools] up to the partition of the repositories:
    flattening, the completion and resolution of every flattened repository,
    and the filter. *)
Definition install_tools_prepare
    (tools : list loc) (force_latest_revision : bool) (default_toolshed : string)
    (start : option Z) : M (list loc * list loc) :=
  flattened_repos ← _flatten_repo_info tools;
  repository_list_with_none ←
    list_comprehension
      (set_defaults_in_repo_information start default_toolshed force_latest_revision)
      flattened_repos;
  let repository_list := not_none repository_list_with_none in
  filter_installed_repos repository_list.

(** The two loops that fill the result lists. *)
Definition install_tools_loops (fuel : nat) (total_num_repositories : nat)
    (installation_start : Z) (log : bool)
    (not_installed_repos already_installed_repos : list loc) (v : locals) : M locals :=
  v ← for_each already_installed_repos (skip_step total_num_repositories log) v;
  for_each not_installed_repos
    (install_step fuel total_num_repositories installation_start log) v.

(** [install_tools].  The last statement before [return] builds the result
    type with [namedtuple("InstallResults", [names])] where [names] is one
    string holding the three field names, commas and blanks included; it is
    not an identifier and [namedtuple] raises [ValueError]. *)
Definition install_tools (fuel : nat) (tools : list loc) (log : bool)
    (force_latest_revision : bool) (default_toolshed : string) : M InstallResults :=
  match tools with
  | [] => raise (ValueError "Empty list of tools was given")
  | _ :: _ =>
      installation_start ← get_now;
      let v := Locals [] [] [] 0 None in
      let total_num_repositories := length tools in
      '(not_installed_repos, already_installed_repos) ←
        install_tools_prepare tools force_latest_revision default_toolshed (start v);
      v ← install_tools_loops fuel total_num_repositories installation_start log
            not_installed_repos already_installed_repos v;
      lift (log_results log v) ;;
      raise (ValueError "Type names and field names must be valid identifiers")
  end.

End Program.

(** ** A scripted world

    A world whose answers are written down in advance, for running the
    program on concrete inputs.  Every call takes one microsecond. *)
Module Scripted.

Record script := Script {
  clock : Z;
  (** the outcomes of the successive install calls *)
  installs : list (response + string * string);
  (** the outcomes of the successive [get_repositories] calls *)
  polls : list (list dict + string * string);
  (** the tool list of the Galaxy instance *)
  tools : list dict;
  (** the installable revisions the Tool Shed knows, for any repository *)
  shed : list string;
}.

Definition tick (w : script) : script :=
  Script (clock w + 1) (installs w) (polls w) (tools w) (shed w).

#[global] Instance script_galaxy : Galaxy script := {|
  now := clock;
  sleep seconds w :=
    Script (clock w + seconds * 1000000) (installs w) (polls w) (tools w) (shed w);
  ts_install_repository_revision kwargs w :=
    match installs w with
    | [] => (tick w, inl ROther)
    | r :: rest => (Script (clock w + 1) rest (polls w) (tools w) (shed w), r)
    end;
  ts_get_repositories w :=
    match polls w with
    | [] => (tick w, inl [])
    | r :: rest => (Script (clock w + 1) (installs w) rest (tools w) (shed w), r)
    end;
  gi_tool_list w := (tick w, tools w);
  get_ordered_installable_revisions url name owner w := (tick w, shed w);
|}.

(** A quiet world: nothing installed, nothing scripted. *)
Definition quiet : script := Script 0 [] [] [] [].

Definition start_state (h : list dict) (w : script) : state script := State h w [].

End Scripted.

(** * The vocabulary of the properties *)

(** The registry URL [the_same_repository] compares. *)
Definition url_of (d : dict) : value :=
  py_get_default d "tool_shed" (py_get_default d "tool_shed_url" VNone).

(** The record has no URL, or its URL is a string. *)
Definition url_is_text (d : dict) : Prop :=
  match url_of d with
  | VList _ => False
  | _ => True
  end.

(** The three fields compared by equality. *)
Definition identity_keys : list string := ["changeset_revision"; "name"; "owner"].

(** The dictionary [install_repository_revision] leaves in place of [d]. *)
Definition relabelled (d : dict) (label : value) : dict :=
  <["new_tool_panel_section_label" := label]> (delete "tool_panel_section_label" d).

(** What [install_repository_revision] makes of the answer to its call. *)
Definition install_outcome (log : bool) (kwargs : dict)
    (r : response + string * string) : outcome response :=
  match r with
  | inl (RDict rd) =>
      if bool_decide (py_get_default rd "status" VNone = VStr "ok") && log
      then outcome_bind (py_getitem kwargs "name") (λ _, Ok (RDict rd))
      else Ok (RDict rd)
  | inl ROther => Ok ROther
  | inr (message, body) => Raise (ConnectionError message body)
  end.

(** What an inventory entry [e] says about the repository [d]: [Some true]
    when it has the name and owner of [d] and status [Installed],
    [Some false] when it has them and status [Error], [None] otherwise. *)
Definition decisive (d e : dict) : option bool :=
  if bool_decide (e !! "name" = d !! "name") && bool_decide (e !! "owner" = d !! "owner") then
    if bool_decide (e !! "status" = Some (VStr "Installed")) then Some true
    else if bool_decide (e !! "status" = Some (VStr "Error")) then Some false
    else None
  else None.

(** The first thing said about [d] in a sequence of entries. *)
Fixpoint verdict (d : dict) (entries : list dict) : option bool :=
  match entries with
  | [] => None
  | e :: rest =>
      match decisive d e with
      | Some b => Some b
      | None => verdict d rest
      end
  end.

(** The inventory entries a call log delivered, in order. *)
Definition polled (evs : list event) : list dict :=
  evs ≫= (λ ev, match ev with EvGetRepositories (inl entries) => entries | _ => [] end).

(** The calls of the polling loop: inventory fetches and sleeps. *)
Definition is_poll_event (ev : event) : Prop :=
  match ev with
  | EvGetRepositories _ | EvSleep _ => True
  | _ => False
  end.

(** An inventory entry with the keys the scan reads. *)
Definition entry_ok (e : dict) : Prop :=
  is_Some (e !! "name") ∧ is_Some (e !! "owner") ∧ is_Some (e !! "status").

(** What the waiting code can end in: a result, the [KeyError] of a key
    that is not there, or the end of the fuel. *)
Definition waiting_outcome {A} (r : outcome A) : Prop :=
  match r with
  | Ok _ | Raise (KeyError _) | Abort OutOfFuel => True
  | _ => False
  end.

Section Vocabulary.
Context {World : Type} `{!Galaxy World}.
Implicit Types (st : state World) (d : dict).

(** What holds after a scan of [entries] from [st]: the heap is as it was,
    the calls were sleeps, the clock did not go back, the scan did not
    abort, and a result is the verdict of [entries]. *)
Definition scan_post d (entries : list dict) st st' (r : outcome (option bool)) : Prop :=
  heap st' = heap st ∧
  (∃ sleeps, calls st' = calls st ++ sleeps ∧ Forall is_poll_event sleeps ∧
             polled sleeps = []) ∧
  ((∀ w, now w ≤ now (sleep 10 w)) → now (world st) ≤ now (world st')) ∧
  (∀ a, r ≠ Abort a) ∧
  (∀ message body, r ≠ Raise (ConnectionError message body)) ∧
  (∀ o, r = Ok o → o = verdict d entries).

End Vocabulary.

(** * Concrete worlds and inputs *)

Import Scripted.

(** The default of [default_toolshed]. *)
Definition toolshed : string := "https://toolshed.g2.bx.psu.edu/".

(** A tool listed with two revisions. *)
Definition two_revisions : dict :=
  <["name" := VStr "x"]> (<["owner" := VStr "o"]>
  (<["revisions" := VList ["r1"; "r2"]]> ∅)).

(** A completed repository, as [complete_repo_information] leaves it. *)
Definition wanted : dict :=
  <["name" := VStr "x"]> (<["owner" := VStr "o"]>
  (<["tool_shed_url" := VStr toolshed]> (<["changeset_revision" := VStr "r1"]>
  (<["tool_panel_section_id" := VStr "s"]> (<["tool_panel_section_label" := VNone]> ∅))))).

(** Entries of the tool list of a Galaxy instance. *)
Definition installed_x : dict :=
  <["name" := VStr "x"]> (<["owner" := VStr "o"]>
  (<["tool_shed_url" := VStr "toolshed.g2.bx.psu.edu"]> (<["revisions" := VList ["r1"]]> ∅))).

Definition installed_y : dict :=
  <["name" := VStr "y"]> (<["owner" := VStr "o"]>
  (<["tool_shed_url" := VStr "toolshed.g2.bx.psu.edu"]> (<["revisions" := VList ["r9"]]> ∅))).

Definition installed_z : dict :=
  <["name" := VStr "z"]> (<["owner" := VStr "o"]>
  (<["tool_shed_url" := VStr "toolshed.g2.bx.psu.edu"]> (<["revisions" := VList ["r7"]]> ∅))).

(** A tool with neither [tool_panel_section_id] nor
    [tool_panel_section_label], and a tool with a section. *)
Definition no_section : dict :=
  <["name" := VStr "x"]> (<["owner" := VStr "o"]> ∅).

Definition with_section : dict :=
  <["name" := VStr "y"]> (<["owner" := VStr "o"]>
  (<["tool_panel_section_id" := VStr "s"]> (<["changeset_revision" := VStr "r1"]> ∅))).

(** Two records of one repository whose URLs differ in scheme and
    trailing slash, and a record without URL. *)
Definition record_a : dict :=
  <["name" := VStr "x"]> (<["owner" := VStr "o"]>
  (<["changeset_revision" := VStr "r1"]> (<["tool_shed_url" := VStr toolshed]> ∅))).

Definition record_b : dict :=
  <["name" := VStr "x"]> (<["owner" := VStr "o"]>
  (<["changeset_revision" := VStr "r1"]> (<["tool_shed" := VStr "toolshed.g2.bx.psu.edu"]> ∅))).

Definition record_no_url : dict :=
  <["name" := VStr "x"]> (<["owner" := VStr "o"]>
  (<["changeset_revision" := VStr "r1"]> ∅)).

(** A tool without revision, in a world whose Tool Shed knows no
    revision. *)
Definition unknown_tool : dict :=
  <["name" := VStr "x"]> (<["owner" := VStr "o"]>
  (<["tool_panel_section_id" := VStr "s"]> ∅)).

Definition unknown_state : state script := start_state [unknown_tool] quiet.

(** The local variables of [install_tools] when the install loop starts
    with nothing skipped. *)
Definition first_turn : locals := Locals [] [] [] 0 None.

(** A Galaxy whose install call answers with the duplicate-install phrase. *)
Definition duplicate_world : script :=
  Script 0 [inr ("400 Bad Request", default_err_msg)] [] [] [].

Definition duplicate_state : state script := start_state [wanted] duplicate_world.

(** An entry of [get_repositories]. *)
Definition entry (name owner status : string) : dict :=
  <["name" := VStr name]> (<["owner" := VStr owner]> (<["status" := VStr status]> ∅)).

(** A Galaxy whose install call times out at the gateway while an earlier
    revision of the repository is in error and the wanted one is
    installed. *)
Definition error_then_installed_world : script :=
  Script 0 [inr ("504 Gateway Time-out", "")]
           [inl [entry "x" "o" "Error"; entry "x" "o" "Installed"]] [] [].

(** A Galaxy whose gateway times out with the duplicate-install phrase in
    the body of the error. *)
Definition timeout_and_phrase_world : script :=
  Script 0 [inr ("504 Gateway Time-out", default_err_msg)]
           [inl [entry "x" "o" "Installed"]] [] [].

(** ** A Galaxy behind a slow gateway

    The world is the clock alone: every install call times out at the
    gateway, and every inventory fetch reports the repository [x] of [o] as
    installed. *)
Module Steady.

#[global] Instance steady_galaxy : Galaxy Z := {|
  now w := w;
  sleep seconds w := w + seconds * 1000000;
  ts_install_repository_revision kwargs w := (w + 1, inr ("504 Gateway Time-out", ""));
  ts_get_repositories w := (w + 1, inl [entry "x" "o" "Installed"]);
  gi_tool_list w := (w + 1, []);
  get_ordered_installable_revisions url name owner w := (w + 1, []);
|}.

Definition steady_state : state Z := State [wanted] 0 [].

(** More turns of the polling loop than there are microseconds in an
    hour. *)
Definition hour_of_fuel : nat := S (Z.to_nat (3600 * 1000000)).

End Steady.

(** Inputs of the further properties: a tool without name, a data manager
    without panel section, a tool whose [revisions] is one string, a record
    with an unformatted URL, and a Tool Shed that knows two revisions. *)
Definition no_name : dict := <["owner" := VStr "o"]> ∅.

Definition data_manager_tool : dict :=
  <["name" := VStr "data_manager_fetch"]> (<["owner" := VStr "o"]> ∅).

Definition string_revisions : dict :=
  <["name" := VStr "x"]> (<["owner" := VStr "o"]> (<["revisions" := VStr "ab"]> ∅)).

Definition record_plain_url : dict :=
  <["name" := VStr "x"]> (<["owner" := VStr "o"]>
  (<["changeset_revision" := VStr "r1"]>
  (<["tool_shed_url" := VStr "toolshed.g2.bx.psu.edu"]> ∅))).

Definition two_revisions_world : script := Script 0 [] [] [] ["r1"; "r2"].

Definition unresolved : dict :=
  <["name" := VStr "x"]> (<["owner" := VStr "o"]>
  (<["tool_shed_url" := VStr toolshed]> (<["changeset_revision" := VNone]>
  (<["tool_panel_section_id" := VStr "s"]> (<["tool_panel_section_label" := VNone]> ∅))))).

(** A Galaxy whose install call is refused, and one whose inventory holds
    other repositories only. *)
Definition refused_world : script :=
  Script 0 [inr ("500 Internal Server Error", "no such repository")] [] [] [].

Definition other_inventory : list dict :=
  [entry "y" "o" "Installing"; entry "x" "p" "Installing"].

Definition other_inventory_world : script := Script 0 [] [inl other_inventory] [] [].

(** A Galaxy instance with one tool installed. *)
Definition one_tool_world : script := Script 0 [] [] [installed_x] [].

(** * Properties *)

(** ** Strings *)

Lemma prefix_nil (s : string) : String.prefix "" s = true.
Proof. by destruct s. Qed.

Lemma append_cons (c : Ascii.ascii) (p s : string) :
  String c p +:+ s = String c (p +:+ s).
Proof. reflexivity. Qed.

Lemma prefix_spec (p s : string) :
  String.prefix p s = true ↔ ∃ post, s = p +:+ post.
Proof.
  revert s. induction p as [|c p IH]; intros s.
  - rewrite prefix_nil. split; [intros _; by exists s | done].
  - destruct s as [|c' s]; simpl.
    + split; [done | by intros [post ?]].
    + destruct (Ascii.ascii_dec c c') as [->|Hne].
      * rewrite IH. split; intros [post Hpost]; exists post;
          rewrite append_cons in *; congruence.
      * split; [done | intros [post Hpost]; rewrite append_cons in *; congruence].
Qed.

Lemma contains_nil (needle : string) :
  contains needle "" = String.prefix needle "".
Proof. unfold contains. apply orb_false_r. Qed.

Lemma contains_cons (needle : string) (c : Ascii.ascii) (hay : string) :
  contains needle (String c hay) =
  String.prefix needle (String c hay) || contains needle hay.
Proof. reflexivity. Qed.

(** [contains needle hay] holds exactly when [needle] is a substring of
    [hay]. *)
Lemma contains_spec (needle hay : string) :
  contains needle hay = true ↔ ∃ pre post, hay = pre +:+ needle +:+ post.
Proof.
  induction hay as [|c hay IH].
  - rewrite contains_nil, prefix_spec. split.
    + intros [post Hpost]. by exists "", post.
    + intros [[|c pre] [post Hpost]]; [by exists post | done].
  - rewrite contains_cons, orb_true_iff, IH, prefix_spec. split.
    + intros [[post Hpost] | (pre & post & Hpost)].
      * by exists "", post.
      * exists (String c pre), post. by rewrite append_cons, Hpost.
    + intros [[|c' pre] [post Hpost]].
      * left. by exists post.
      * right. exists pre, post. rewrite append_cons in Hpost. congruence.
Qed.

(** ** [the_same_repository] *)

Lemma the_same_repository_differs (a b : dict) (k : string) :
  k ∈ identity_keys → py_get a k ≠ py_get b k → the_same_repository a b = Ok false.
Proof.
  unfold identity_keys. intros Hk Hne. unfold the_same_repository.
  repeat case_decide; try done.
  apply elem_of_cons in Hk as [->|Hk]; [done|].
  apply elem_of_cons in Hk as [->|Hk]; [done|].
  apply elem_of_cons in Hk as [->|Hk]; [done|].
  by apply elem_of_nil in Hk.
Qed.

Lemma the_same_repository_agree (a b : dict) :
  py_get a "changeset_revision" = py_get b "changeset_revision" →
  py_get a "name" = py_get b "name" →
  py_get a "owner" = py_get b "owner" →
  the_same_repository a b =
    outcome_bind (py_in (url_of a) (url_of b)) (λ b1,
      if b1 then Ok true
      else outcome_bind (py_in (url_of b) (url_of a)) (λ b2,
        if b2 then Ok true else Ok false)).
Proof.
  intros Hrev Hname Howner. unfold the_same_repository.
  rewrite !decide_True by done. done.
Qed.

Lemma the_same_repository_true (a b : dict) :
  the_same_repository a b = Ok true →
  py_get a "changeset_revision" = py_get b "changeset_revision" ∧
  py_get a "name" = py_get b "name" ∧
  py_get a "owner" = py_get b "owner".
Proof.
  unfold the_same_repository. repeat case_decide; done.
Qed.

(** C7.  [the_same_repository] is symmetric; it returns [True] only when the
    two records have equal [changeset_revision], equal [name], equal [owner]
    and one registry URL is a substring of the other; and giving one of the
    three fields of a matching record a different value makes the result
    [False].  The records are those of the data model: the registry URL of a
    record, when it has one, is a string. *)
Theorem the_same_repository_symmetric_exact (a b : dict) :
  url_is_text a → url_is_text b →
  the_same_repository a b = the_same_repository b a ∧
  (the_same_repository a b = Ok true →
     py_get a "changeset_revision" = py_get b "changeset_revision" ∧
     py_get a "name" = py_get b "name" ∧
     py_get a "owner" = py_get b "owner" ∧
     ∃ s t, url_of a = VStr s ∧ url_of b = VStr t ∧
            ((∃ pre post, t = pre +:+ s +:+ post) ∨ (∃ pre post, s = pre +:+ t +:+ post))) ∧
  (∀ k v, k ∈ identity_keys → the_same_repository a b = Ok true → v ≠ py_get a k →
     the_same_repository (<[k:=v]> a) b = Ok false ∧
     the_same_repository a (<[k:=v]> b) = Ok false).
Proof.
  intros Ha Hb. split; [|split].
  - unfold the_same_repository, url_is_text, url_of in *.
    repeat case_decide; try congruence.
    destruct (py_get_default a "tool_shed" _), (py_get_default b "tool_shed" _);
      simpl in *; try done.
    by destruct (contains s s0), (contains s0 s).
  - intros Htrue.
    destruct (the_same_repository_true a b Htrue) as (Hrev & Hname & Howner).
    rewrite the_same_repository_agree in Htrue by done.
    repeat (split; [done|]).
    unfold url_is_text in *.
    destruct (url_of a) as [|s|], (url_of b) as [|t|]; simpl in *; try done.
    exists s, t. repeat (split; [done|]).
    destruct (contains s t) eqn:Hst.
    + left. by apply contains_spec.
    + destruct (contains t s) eqn:Hts; [|done]. right. by apply contains_spec.
  - intros k v Hk Htrue Hv.
    assert (py_get a k = py_get b k) as Hab.
    { destruct (the_same_repository_true a b Htrue) as (Hrev & Hname & Howner).
      unfold identity_keys in Hk.
      apply elem_of_cons in Hk as [->|Hk]; [done|].
      apply elem_of_cons in Hk as [->|Hk]; [done|].
      apply elem_of_cons in Hk as [->|Hk]; [done|].
      by apply elem_of_nil in Hk. }
    split; apply (the_same_repository_differs _ _ k Hk);
      unfold py_get, py_get_default; rewrite lookup_insert_eq; simpl;
      fold (py_get_default a k VNone) (py_get_default b k VNone);
      fold (py_get a k) (py_get b k); congruence.
Qed.

Lemma VNone_not_in_strings (l : list string) : VNone ∉ VStr <$> l.
Proof. intros (s & ? & _)%list_elem_of_fmap. done. Qed.

(** C9.  On two records that agree on [changeset_revision], [name] and
    [owner], [the_same_repository] raises [TypeError] whenever one of them
    has neither a [tool_shed] nor a [tool_shed_url] key; it returns a boolean
    when both carry a URL string, and (the URL of a record being a string
    when it has one) only then. *)
Theorem the_same_repository_url_none (a b : dict) :
  py_get a "changeset_revision" = py_get b "changeset_revision" →
  py_get a "name" = py_get b "name" →
  py_get a "owner" = py_get b "owner" →
  ((a !! "tool_shed" = None ∧ a !! "tool_shed_url" = None) ∨
   (b !! "tool_shed" = None ∧ b !! "tool_shed_url" = None) →
   the_same_repository a b = Raise TypeError) ∧
  (∀ s t, url_of a = VStr s → url_of b = VStr t →
     the_same_repository a b = Ok (contains s t || contains t s)) ∧
  (∀ r, url_is_text a → url_is_text b → the_same_repository a b = Ok r →
     ∃ s t, url_of a = VStr s ∧ url_of b = VStr t).
Proof.
  intros Hrev Hname Howner.
  rewrite the_same_repository_agree by done. split; [|split].
  - intros [[H1 H2]|[H1 H2]].
    + assert (url_of a = VNone) as ->
        by (unfold url_of, py_get_default; by rewrite H1, H2).
      destruct (url_of b) as [|t|l]; simpl; [done..|].
      by rewrite bool_decide_eq_false_2 by apply VNone_not_in_strings.
    + assert (url_of b = VNone) as ->
        by (unfold url_of, py_get_default; by rewrite H1, H2).
      done.
  - intros s t -> ->. simpl. by destruct (contains s t), (contains t s).
  - intros r Ha Hb. unfold url_is_text in *.
    destruct (url_of a) as [|s|], (url_of b) as [|t|]; simpl in *; try done.
    intros _. by exists s, t.
Qed.

(** ** Running computations *)

Section Running.
Context {World : Type} `{!Galaxy World}.
Implicit Types (st : state World) (d : dict) (l : loc).

Lemma run_bind_ok {A B} (m : M World A) (k : A → M World B) st st' a :
  m st = (st', Ok a) → (m ≫= k) st = k a st'.
Proof. unfold mbind, M_bind. by intros ->. Qed.

Lemma run_bind_raise {A B} (m : M World A) (k : A → M World B) st st' e :
  m st = (st', Raise e) → (m ≫= k) st = (st', Raise e).
Proof. unfold mbind, M_bind. by intros ->. Qed.

(** A computation that returns went through its first part. *)
Lemma run_bind_inv {A B} (m : M World A) (k : A → M World B) st st' b :
  (m ≫= k) st = (st', Ok b) →
  ∃ st1 a, m st = (st1, Ok a) ∧ k a st1 = (st', Ok b).
Proof.
  unfold mbind, M_bind. destruct (m st) as [st1 [a|e|a]]; [eauto|done..].
Qed.

Lemma deref_ok l d st : heap st !! l = Some d → deref l st = (st, Ok d).
Proof. unfold deref. by intros ->. Qed.

Lemma store_ok l d d0 st :
  heap st !! l = Some d0 →
  store l d st = (State (<[l:=d]> (heap st)) (world st) (calls st), Ok tt).
Proof. unfold store. by intros ->. Qed.

Lemma state_eta st : State (heap st) (world st) (calls st) = st.
Proof. by destruct st. Qed.

End Running.

(** ** [install_tools] on the empty list *)

(** C8.  For the empty list of tools [install_tools] raises [ValueError] at
    once: the heap, the world and the call log are as they were, so nothing
    has been flattened, resolved, filtered or installed, and there is no
    result. *)
Theorem install_tools_empty {World : Type} `{!Galaxy World}
    (fuel : nat) (log force_latest_revision : bool) (default_toolshed : string)
    (st : state World) :
  install_tools fuel [] log force_latest_revision default_toolshed st =
    (st, Raise (ValueError "Empty list of tools was given")).
Proof. reflexivity. Qed.

(** ** [install_repository_revision] *)

Lemma install_repository_revision_run {World : Type} `{!Galaxy World}
    (repository : loc) (log : bool) (d : dict) (label : value) (st : state World) :
  heap st !! repository = Some d →
  d !! "tool_panel_section_label" = Some label →
  install_repository_revision repository log st =
    let d' := relabelled d label in
    let wr := ts_install_repository_revision d' (world st) in
    (State (<[repository := d']> (heap st)) wr.1 (calls st ++ [EvInstall d' wr.2]),
     install_outcome log d' wr.2).
Proof.
  intros Hd Hlabel.
  assert (repository < length (heap st))%nat as Hlt by by eapply lookup_lt_Some.
  unfold install_repository_revision.
  erewrite run_bind_ok by (by apply deref_ok).
  erewrite run_bind_ok by (unfold py_getitem; by rewrite Hlabel).
  erewrite run_bind_ok by (by eapply store_ok).
  erewrite run_bind_ok by (apply deref_ok; simpl; by apply list_lookup_insert_eq).
  erewrite run_bind_ok by (eapply store_ok; simpl; by apply list_lookup_insert_eq).
  simpl. rewrite list_insert_insert_eq.
  erewrite run_bind_ok by (apply deref_ok; simpl; by apply list_lookup_insert_eq).
  fold (relabelled d label).
  unfold mbind, M_bind, call_install; simpl.
  destruct (ts_install_repository_revision _ (world st))
    as [w [[rd|]|[message body]]]; simpl; try done.
  destruct (bool_decide _ && log); [|done].
  unfold deref, lift, mret, M_ret; simpl. rewrite list_lookup_insert_eq by done.
  by destruct (py_getitem _ "name").
Qed.

(** Without a key [tool_panel_section_label] the function raises [KeyError]
    and neither changes the dictionary nor issues the call. *)
Lemma install_repository_revision_no_label {World : Type} `{!Galaxy World}
    (repository : loc) (log : bool) (d : dict) (st : state World) :
  heap st !! repository = Some d →
  d !! "tool_panel_section_label" = None →
  install_repository_revision repository log st =
    (st, Raise (KeyError "tool_panel_section_label")).
Proof.
  intros Hd Hlabel. unfold install_repository_revision.
  erewrite run_bind_ok by (by apply deref_ok).
  erewrite run_bind_raise; [done|]. unfold py_getitem. by rewrite Hlabel.
Qed.

(** C10.  [install_repository_revision] changes the dictionary it is given
    before it issues the install call: the key [tool_panel_section_label] is
    removed and its value is stored under [new_tool_panel_section_label],
    the other keys keeping their values; the call receives the changed
    dictionary; and the change is in the heap afterwards whatever the
    outcome [r], which is the response of the call when it returns and its
    [ConnectionError] when it raises.  No other dictionary changes. *)
Theorem install_repository_revision_mutates {World : Type} `{!Galaxy World}
    (repository : loc) (log : bool) (d : dict) (label : value)
    (st st' : state World) (r : outcome response) :
  heap st !! repository = Some d →
  d !! "tool_panel_section_label" = Some label →
  install_repository_revision repository log st = (st', r) →
  let d' := <["new_tool_panel_section_label" := label]>
              (delete "tool_panel_section_label" d) in
  heap st' = <[repository := d']> (heap st) ∧
  d' !! "tool_panel_section_label" = None ∧
  d' !! "new_tool_panel_section_label" = Some label ∧
  (∀ k, k ≠ "tool_panel_section_label" → k ≠ "new_tool_panel_section_label" →
        d' !! k = d !! k) ∧
  calls st' = calls st ++
              [EvInstall d' (ts_install_repository_revision d' (world st)).2] ∧
  world st' = (ts_install_repository_revision d' (world st)).1 ∧
  (log = false →
   r = match (ts_install_repository_revision d' (world st)).2 with
       | inl resp => Ok resp
       | inr (message, body) => Raise (ConnectionError message body)
       end).
Proof.
  intros Hd Hlabel Hrun d'. subst d'.
  rewrite (install_repository_revision_run _ _ d label) in Hrun by done.
  cbv zeta in Hrun. unfold relabelled in Hrun.
  injection Hrun as <- <-. cbn [heap world calls].
  split; [done|]. split; [by rewrite lookup_insert_ne, lookup_delete_eq|].
  split; [by rewrite lookup_insert_eq|].
  split; [intros k ? ?; by rewrite lookup_insert_ne, lookup_delete_ne|].
  split; [done|]. split; [done|]. intros ->.
  destruct (ts_install_repository_revision _ (world st)) as [w [[rd|]|[m b]]];
    cbn [snd install_outcome]; try done.
  by rewrite andb_false_r.
Qed.

(** * Flattening and filtering *)

Section Flattening.
Context {World : Type} `{!Galaxy World}.
Implicit Types (st : state World) (d : dict) (l : loc).

(** The loop over the revisions of one tool: every turn overwrites
    [changeset_revision] in the dictionary at [l] and appends [l]. *)
Lemma flatten_revisions_loop l (revs : list string) d (flattened_list : list loc) st :
  heap st !! l = Some d →
  for_each (VStr <$> revs) (λ revision flattened_list,
      d' ← deref l;
      store l (<["changeset_revision" := revision]> d') ;;
      mret (flattened_list ++ [l])) flattened_list st
  = (State (<[l := foldl (λ d r, <["changeset_revision" := VStr r]> d) d revs]> (heap st))
           (world st) (calls st),
     Ok (flattened_list ++ replicate (length revs) l)).
Proof.
  revert d flattened_list st.
  induction revs as [|r revs IH]; intros d flattened_list st Hd; simpl.
  - by rewrite list_insert_id, state_eta, app_nil_r.
  - assert (l < length (heap st))%nat as Hlt by by eapply lookup_lt_Some.
    erewrite run_bind_ok; last first.
    { erewrite run_bind_ok by (by apply deref_ok).
      erewrite run_bind_ok by (by eapply store_ok). reflexivity. }
    rewrite (IH (<["changeset_revision" := VStr r]> d))
      by (simpl; by apply list_lookup_insert_eq).
    simpl. by rewrite list_insert_insert_eq, <-app_assoc.
Qed.

(** For a tool with a list of revisions [_flatten_repo_info] returns as many
    entries as there are revisions, and each of them is the address of the
    tool's own dictionary, which has lost its [revisions] and had its
    [changeset_revision] set to every revision in turn. *)
Lemma flatten_repo_info_revisions l (revs : list string) d st :
  heap st !! l = Some d →
  d !! "revisions" = Some (VList revs) →
  _flatten_repo_info [l] st
  = (State (<[l := foldl (λ d r, <["changeset_revision" := VStr r]> d)
                         (delete "revisions" d) revs]> (heap st))
           (world st) (calls st),
     Ok (replicate (length revs) l)).
Proof.
  intros Hd Hrevs.
  assert (l < length (heap st))%nat as Hlt by by eapply lookup_lt_Some.
  unfold _flatten_repo_info. simpl.
  erewrite run_bind_ok; [reflexivity|].
  erewrite run_bind_ok by (by apply deref_ok). rewrite Hrevs.
  erewrite run_bind_ok by (by eapply store_ok).
  erewrite run_bind_ok by reflexivity.
  rewrite (flatten_revisions_loop _ _ (delete "revisions" d))
    by (simpl; by apply list_lookup_insert_eq).
  simpl. by rewrite list_insert_insert_eq.
Qed.

(** A tool without [revisions] is passed on as it is. *)
Lemma flatten_repo_info_no_revisions l d st :
  heap st !! l = Some d →
  d !! "revisions" = None →
  _flatten_repo_info [l] st = (st, Ok [l]).
Proof.
  intros Hd Hrevs. unfold _flatten_repo_info. simpl.
  erewrite run_bind_ok; [reflexivity|].
  erewrite run_bind_ok by (by apply deref_ok). by rewrite Hrevs.
Qed.

(** When the Galaxy instance has no tool installed,
    [filter_installed_repos] returns two empty lists whatever it is
    given. *)
Lemma filter_installed_repos_nothing_installed (repos : list loc) st :
  (∀ w, (gi_tool_list w).2 = []) →
  ∃ st', filter_installed_repos repos st = (st', Ok ([], [])).
Proof.
  intros Hnone.
  assert (∀ st, ∃ st', installed_repos st = (st', Ok [])) as Hinstalled.
  { intros st0. unfold installed_repos, call_tool_list.
    unfold mbind at 1, M_bind at 1. specialize (Hnone (world st0)).
    destruct (gi_tool_list (world st0)) as [w tools]. simpl in Hnone.
    subst tools. by eauto. }
  unfold filter_installed_repos. revert st.
  induction repos as [|repo repos IH]; intros st; simpl; [by eauto|].
  destruct (Hinstalled st) as [st1 Hst1].
  erewrite run_bind_ok; [by apply IH|].
  by erewrite run_bind_ok by exact Hst1.
Qed.

(** When [complete_repo_information] raises [KeyError] while [start] is
    unbound, [set_defaults_in_repo_information] raises [NameError]. *)
Lemma set_defaults_in_repo_information_unbound_start
    default_toolshed force (repository : loc) st st' message :
  complete_repo_information repository default_toolshed true st
    = (st', Raise (KeyError message)) →
  set_defaults_in_repo_information None default_toolshed force repository st
    = (st', Raise (NameError "start")).
Proof.
  intros Hcomplete. unfold set_defaults_in_repo_information.
  erewrite run_bind_raise; [reflexivity|].
  unfold try_except_KeyError. by erewrite run_bind_raise by exact Hcomplete.
Qed.

End Flattening.

(** * Runs on concrete inputs *)

(** ** [_flatten_repo_info] on a tool with two revisions *)

(** C1.  On the list [[{name: x, owner: o, revisions: [r1, r2]}]]
    [_flatten_repo_info] returns two entries, and both are the one input
    dictionary, whose [changeset_revision] the second turn of the loop has
    set to [r2]: the first unit of the result does not carry [r1]. *)
Theorem flatten_repo_info_shares_dictionary :
  ∃ st', _flatten_repo_info [0%nat] (start_state [two_revisions] quiet)
           = (st', Ok [0%nat; 0%nat]) ∧
         heap st' = [<["name" := VStr "x"]> (<["owner" := VStr "o"]>
                     (<["changeset_revision" := VStr "r2"]> ∅))] ∧
         match heap st' !! 0%nat with
         | Some first => first !! "changeset_revision"
         | None => None
         end = Some (VStr "r2").
Proof. eexists. split; [|split]; vm_compute; reflexivity. Qed.

(** ** [filter_installed_repos] *)

(** C2.  [filter_installed_repos] puts a repository in one of its lists once
    for every installed repository it is compared with.  With nothing
    installed the repository is in neither list; with [x] and [y] installed,
    the wanted [x] is in both lists; with [y] and [z] installed it is twice
    in [not_installed_repos]. *)
Theorem filter_installed_repos_not_a_partition :
  (filter_installed_repos [0%nat] (start_state [wanted] quiet)).2
    = Ok ([], []) ∧
  (filter_installed_repos [0%nat]
     (start_state [wanted] (Script 0 [] [] [installed_x; installed_y] []))).2
    = Ok ([0%nat], [0%nat]) ∧
  (filter_installed_repos [0%nat]
     (start_state [wanted] (Script 0 [] [] [installed_y; installed_z] []))).2
    = Ok ([0%nat; 0%nat], []).
Proof. split; [|split]; vm_compute; reflexivity. Qed.

(** ** [install_tools] on a tool without panel section *)

(** C3.  On the batch of [x], which has neither [tool_panel_section_id] nor
    [tool_panel_section_label], and the well-formed [y], [install_tools]
    raises [NameError]: the handler of the [KeyError] reads the variable
    [start] before the install loop has bound it.  The call log is empty:
    [y] has not been processed. *)
Theorem install_tools_missing_section_raises :
  install_tools 1 [0%nat; 1%nat] true false toolshed
      (start_state [no_section; with_section] quiet)
    = (start_state [no_section; with_section] quiet, Raise (NameError "start")).
Proof. vm_compute. reflexivity. Qed.

(** * The install loop *)

Section InstallLoop.
Context {World : Type} `{!Galaxy World}.
Implicit Types (st : state World) (d : dict) (v : locals).

Lemma relabelled_lookup_ne d label k :
  k ≠ "tool_panel_section_label" → k ≠ "new_tool_panel_section_label" →
  relabelled d label !! k = d !! k.
Proof. intros. unfold relabelled. by rewrite lookup_insert_ne, lookup_delete_ne. Qed.

Lemma py_getitem_ok d k x : d !! k = Some x → py_getitem d k = Ok x.
Proof. unfold py_getitem. by intros ->. Qed.

(** When [log_repository_install_start] returns there is a logger and the
    dictionary has the keys the log line reads. *)
Lemma log_repository_install_start_inv d n total installation_start log :
  log_repository_install_start d n total installation_start log = Ok tt →
  log = true ∧ is_Some (d !! "name") ∧ is_Some (d !! "owner") ∧
  is_Some (d !! "changeset_revision").
Proof.
  unfold log_repository_install_start, py_getitem. destruct log; [|done].
  destruct (d !! "name"); [|done]. destruct (d !! "owner"); [|done].
  destruct (d !! "changeset_revision"); [|simpl].
  - eauto.
  - destruct (d !! "tool_panel_section_id") as [s|]; [|done]; simpl.
    destruct (truthy s); [done|]. by destruct (d !! "tool_panel_section_label").
Qed.

(** An install call that raises [ConnectionError] was issued, on the
    relabelled dictionary, and the error is the one the client raised. *)
Lemma install_repository_revision_raises_inv (repository : loc) log d st st' message body :
  heap st !! repository = Some d →
  install_repository_revision repository log st
    = (st', Raise (ConnectionError message body)) →
  ∃ label, d !! "tool_panel_section_label" = Some label ∧
    let d' := relabelled d label in
    let wr := ts_install_repository_revision d' (world st) in
    wr.2 = inr (message, body) ∧
    st' = State (<[repository := d']> (heap st)) wr.1
                (calls st ++ [EvInstall d' (inr (message, body))]).
Proof.
  intros Hd Hrun. destruct (d !! "tool_panel_section_label") as [label|] eqn:Hlabel.
  - exists label. split; [done|].
    rewrite (install_repository_revision_run _ _ d label) in Hrun by done.
    cbv zeta in *. injection Hrun as <- Hout.
    destruct (ts_install_repository_revision _ (world st)) as [w [[rd|]|[m b]]];
      cbn [fst snd install_outcome] in *; try done.
    + destruct (_ && log); [|done]. unfold py_getitem in Hout.
      by destruct (relabelled d label !! "name").
    + by injection Hout as -> ->.
  - by rewrite (install_repository_revision_no_label _ _ d) in Hrun.
Qed.

Lemma try_except_ConnectionError_raise {A} (body : M World A) handler st st' message e_body :
  body st = (st', Raise (ConnectionError message e_body)) →
  try_except_ConnectionError body handler st = handler message e_body st'.
Proof. unfold try_except_ConnectionError. by intros ->. Qed.

Lemma for_each_cons {A S} (x : A) (xs : list A) (body : A → S → M World S) (acc acc' : S) st st' :
  body x acc st = (st', Ok acc') →
  for_each (x :: xs) body acc st = for_each xs body acc' st'.
Proof. intros Hbody. simpl. by erewrite run_bind_ok. Qed.

(** Up to the install call of [install_step]. *)
Lemma install_step_start fuel total installation_start log (repository : loc) v st d :
  heap st !! repository = Some d →
  log_repository_install_start d (S (counter v)) total installation_start log = Ok tt →
  install_step fuel total installation_start log repository v st =
    try_except_ConnectionError
      (install_repository_revision repository false ;;
       d ← deref repository;
       installed ← lift (log_repository_install_success d (now (world st)) log);
       mret (Locals (installed_repositories v ++ dict_keys installed)
                    (skipped_repositories v) (errored_repositories v)
                    (S (counter v)) (Some (now (world st)))))
      (λ e_message e_body,
         if contains default_err_msg e_body then
           (if log then
              d ← deref repository;
              lift (py_getitem d "name") ;;
              lift (py_getitem d "changeset_revision") ;;
              mret tt
            else raise AttributeError) ;;
           mret (Locals (installed_repositories v) (skipped_repositories v)
                        (errored_repositories v) (S (counter v)) (Some (now (world st))))
         else if contains "504" e_message then
           (if log then d ← deref repository; lift (py_getitem d "name") ;; mret tt
            else raise AttributeError) ;;
           success ← wait_for_install fuel repository log 3600;
           d ← deref repository;
           if (success : bool) then
             installed ← lift (log_repository_install_success d (now (world st)) log);
             mret (Locals (installed_repositories v ++ dict_keys installed)
                          (skipped_repositories v) (errored_repositories v)
                          (S (counter v)) (Some (now (world st))))
           else
             let errored := log_repository_install_error d (now (world st)) (VStr e_body) log in
             mret (Locals (installed_repositories v) (skipped_repositories v)
                          (errored_repositories v ++ dict_keys errored)
                          (S (counter v)) (Some (now (world st))))
         else
           d ← deref repository;
           let errored := log_repository_install_error d (now (world st)) (VStr e_body) log in
           mret (Locals (installed_repositories v) (skipped_repositories v)
                        (errored_repositories v ++ dict_keys errored)
                        (S (counter v)) (Some (now (world st))))) st.
Proof.
  intros Hd Hstart. unfold install_step.
  erewrite run_bind_ok by reflexivity.
  erewrite run_bind_ok by (by apply deref_ok).
  erewrite run_bind_ok by (rewrite Hstart; reflexivity).
  done.
Qed.

(** C5.  When the install call of a repository raises a [ConnectionError]
    whose body contains the duplicate-install phrase, the turn of the loop
    ends normally with the installed, skipped and errored lists as they
    were, and the loop goes on with the repositories that remain. *)
Theorem install_step_duplicate_phrase fuel total installation_start log
    (repository : loc) v st st' d e_message e_body :
  heap st !! repository = Some d →
  log_repository_install_start d (S (counter v)) total installation_start log = Ok tt →
  install_repository_revision repository false st
    = (st', Raise (ConnectionError e_message e_body)) →
  contains default_err_msg e_body = true →
  ∃ v', install_step fuel total installation_start log repository v st = (st', Ok v') ∧
        installed_repositories v' = installed_repositories v ∧
        skipped_repositories v' = skipped_repositories v ∧
        errored_repositories v' = errored_repositories v ∧
        ∀ rest,
          for_each (repository :: rest)
            (install_step fuel total installation_start log) v st
          = for_each rest (install_step fuel total installation_start log) v' st'.
Proof.
  intros Hd Hstart Hinstall Hphrase.
  destruct (log_repository_install_start_inv _ _ _ _ _ Hstart)
    as (-> & [name Hname] & _ & [revision Hrevision]).
  destruct (install_repository_revision_raises_inv _ _ _ _ _ _ _ Hd Hinstall)
    as (label & Hlabel & _ & Hst').
  assert (repository < length (heap st))%nat as Hlt by by eapply lookup_lt_Some.
  assert (install_step fuel total installation_start true repository v st =
          (st', Ok (Locals (installed_repositories v) (skipped_repositories v)
                           (errored_repositories v) (S (counter v))
                           (Some (now (world st)))))) as Hstep.
  { rewrite (install_step_start _ _ _ _ _ _ _ d) by done.
    erewrite try_except_ConnectionError_raise
      by (erewrite run_bind_raise; [reflexivity|exact Hinstall]).
    rewrite Hphrase.
    erewrite run_bind_ok; [reflexivity|].
    erewrite run_bind_ok
      by (apply deref_ok; rewrite Hst'; simpl; by apply list_lookup_insert_eq).
    erewrite run_bind_ok
      by (rewrite (py_getitem_ok _ _ name)
            by (by rewrite relabelled_lookup_ne); reflexivity).
    erewrite run_bind_ok
      by (rewrite (py_getitem_ok _ _ revision)
            by (by rewrite relabelled_lookup_ne); reflexivity).
    reflexivity. }
  eexists. split; [exact Hstep|]. repeat (split; [done|]).
  intros rest. by apply for_each_cons.
Qed.

End InstallLoop.

(** * [wait_for_install] *)

Lemma verdict_app (d : dict) (l1 l2 : list dict) :
  verdict d (l1 ++ l2) =
  match verdict d l1 with Some b => Some b | None => verdict d l2 end.
Proof.
  induction l1 as [|e l1 IH]; simpl; [done|]. by destruct (decisive d e).
Qed.

Lemma polled_app (evs1 evs2 : list event) :
  polled (evs1 ++ evs2) = polled evs1 ++ polled evs2.
Proof. unfold polled. apply bind_app. Qed.

Lemma polled_fetch (entries : list dict) (evs : list event) :
  polled (EvGetRepositories (inl entries) :: evs) = entries ++ polled evs.
Proof. reflexivity. Qed.

Section Waiting.
Context {World : Type} `{!Galaxy World}.
Implicit Types (st : state World) (d : dict).

Lemma scan_post_raise d entries st k : scan_post d entries st st (Raise (KeyError k)).
Proof.
  split; [done|]. split; [exists []; by rewrite app_nil_r|]. done.
Qed.

Lemma scan_post_return d entries st o :
  o = verdict d entries → scan_post d entries st st (Ok o).
Proof.
  intros ->. split; [done|]. split; [exists []; by rewrite app_nil_r|].
  split; [done|]. split; [done|]. split; [done|]. by intros o [= <-].
Qed.

Lemma scan_post_next d e entries st st' r :
  decisive d e = None →
  scan_post d entries st st' r → scan_post d (e :: entries) st st' r.
Proof.
  intros He (Hheap & Hcalls & Hnow & Habort & Hconn & Hok).
  repeat (split; [done|]). intros o Ho. simpl. rewrite He. by apply Hok.
Qed.

Lemma scan_post_sleep d e entries st st' r :
  decisive d e = None →
  scan_post d entries
    (State (heap st) (sleep 10 (world st)) (calls st ++ [EvSleep 10])) st' r →
  scan_post d (e :: entries) st st' r.
Proof.
  intros He (Hheap & (sleeps & Hcalls & Hsleeps & Hpolled) & Hnow & Habort & Hconn & Hok).
  cbn [heap world calls] in *. split; [done|]. split.
  { exists (EvSleep 10 :: sleeps). rewrite Hcalls, <-app_assoc.
    split; [done|]. split; [by constructor|done]. }
  split.
  { intros Hsleep. specialize (Hnow Hsleep). specialize (Hsleep (world st)). lia. }
  split; [done|]. split; [done|]. intros o Ho. cbn [verdict]. rewrite He. by apply Hok.
Qed.

(** The scan of one inventory list. *)
Lemma wait_for_install_scan_run (repository : loc) d (entries : list dict) st st' r :
  heap st !! repository = Some d →
  wait_for_install_scan repository entries st = (st', r) →
  scan_post d entries st st' r.
Proof.
  revert st. induction entries as [|e entries IH]; intros st Hd Hrun.
  - injection Hrun as <- <-. by apply scan_post_return.
  - simpl in Hrun. unfold mbind, M_bind, deref, lift, py_getitem in Hrun.
    rewrite Hd in Hrun.
    destruct (d !! "name") as [name|] eqn:Hdn;
      [|injection Hrun as <- <-; apply scan_post_raise].
    destruct (e !! "name") as [name'|] eqn:Hen;
      [|injection Hrun as <- <-; apply scan_post_raise].
    case_bool_decide as Hname; simpl in Hrun.
    + subst name'.
      destruct (e !! "owner") as [owner'|] eqn:Heo;
        [|injection Hrun as <- <-; apply scan_post_raise].
      destruct (d !! "owner") as [owner|] eqn:Hdo;
        [|injection Hrun as <- <-; apply scan_post_raise].
      simpl in Hrun. case_bool_decide as Howner; simpl in Hrun.
      * subst owner'.
        destruct (e !! "status") as [status|] eqn:Hes;
          [|injection Hrun as <- <-; apply scan_post_raise].
        assert (decisive d e =
                if bool_decide (status = VStr "Installed") then Some true
                else if bool_decide (status = VStr "Error") then Some false
                else None) as Hdec.
        { unfold decisive. rewrite Hdn, Hen, Heo, Hdo, Hes.
          rewrite !bool_decide_eq_true_2 by done. simpl.
          repeat case_bool_decide; congruence. }
        case_bool_decide as Hinst.
        { injection Hrun as <- <-. apply scan_post_return. simpl. by rewrite Hdec. }
        case_bool_decide as Herr.
        { injection Hrun as <- <-. apply scan_post_return. simpl. by rewrite Hdec. }
        apply scan_post_sleep; [done|]. by apply IH.
      * apply scan_post_next; [|by apply IH].
        unfold decisive. rewrite Hdn, Hen, Heo, Hdo.
        rewrite (bool_decide_eq_false_2 (Some owner' = _)) by congruence.
        by rewrite andb_false_r.
    + apply scan_post_next; [|by apply IH].
      unfold decisive. rewrite Hdn, Hen.
      by rewrite bool_decide_eq_false_2 by congruence.
Qed.

(** One pass of the [while] loop: an inventory fetch, then sleeps. *)
Lemma wait_for_install_poll_run (repository : loc) log d st st' r :
  heap st !! repository = Some d →
  wait_for_install_poll repository log st = (st', r) →
  heap st' = heap st ∧
  (∃ evs, calls st' = calls st ++ evs ∧ Forall is_poll_event evs ∧
          ∀ o, r = Ok o → o = verdict d (polled evs)) ∧
  ((∀ w, now w ≤ now (sleep 10 w)) → (∀ w, now w < now (ts_get_repositories w).1) →
   now (world st) < now (world st')) ∧
  (∀ a, r ≠ Abort a).
Proof.
  intros Hd. unfold wait_for_install_poll, try_except_ConnectionError.
  unfold mbind at 1, M_bind at 1, call_get_repositories.
  destruct (ts_get_repositories (world st)) as [w [entries|[message body]]] eqn:Hfetch.
  - destruct (wait_for_install_scan repository entries _) as [st1 r1] eqn:Hscan.
    apply (wait_for_install_scan_run _ d) in Hscan as
      (Hheap & (sleeps & Hcalls & Hsleeps & Hpolled) & Hnow & Habort & Hconn & Hok);
      [|done].
    cbn [heap world calls] in *.
    assert ((st1, r1) = (st', r) → st1 = st' ∧ r1 = r) as Hsame by by intros [= -> ->].
    intros Hrun.
    assert (st1 = st' ∧ r1 = r) as [<- <-].
    { destruct r1 as [o|[| | | | |message body]|]; try (by apply Hsame).
      by destruct (Hconn message body). }
    split; [done|]. split.
    { exists (EvGetRepositories (inl entries) :: sleeps).
      rewrite Hcalls, <-app_assoc. split; [done|]. split; [by constructor|].
      intros o Ho. rewrite (Hok o Ho).
      by rewrite polled_fetch, Hpolled, app_nil_r. }
    split; [|done].
    intros Hsleep Hfetch'. specialize (Hnow Hsleep). specialize (Hfetch' (world st)).
    rewrite Hfetch in Hfetch'. simpl in Hfetch'. lia.
  - unfold time_sleep, mret, M_ret. simpl. intros [= <- <-]. simpl.
    split; [done|]. split.
    { exists [EvGetRepositories (inr (message, body)); EvSleep 10].
      rewrite <-app_assoc. split; [done|]. split; [by repeat constructor|].
      by intros o [= <-]. }
    split; [|done].
    intros Hsleep Hfetch'. specialize (Hsleep w). specialize (Hfetch' (world st)).
    rewrite Hfetch in Hfetch'. simpl in Hfetch'. lia.
Qed.

(** The [while] loop, when it returns: the first verdict of the polled
    entries decides, and without a verdict the time was up. *)
Lemma wait_for_install_loop_run (fuel : nat) (repository : loc) log timeout start d st st' b :
  heap st !! repository = Some d →
  wait_for_install_loop fuel repository log timeout start st = (st', Ok b) →
  heap st' = heap st ∧
  ∃ evs, calls st' = calls st ++ evs ∧ Forall is_poll_event evs ∧
         match verdict d (polled evs) with
         | Some b' => b = b'
         | None => b = false ∧ timeout * 1000000 ≤ now (world st') - start
         end.
Proof.
  revert st. induction fuel as [|fuel IH]; intros st Hd Hrun; [done|].
  simpl in Hrun. unfold mbind at 1, M_bind at 1, get_now in Hrun.
  destruct (now (world st) - start <? timeout * 1000000) eqn:Htime.
  - unfold mbind, M_bind in Hrun.
    destruct (wait_for_install_poll repository log st) as [st1 r1] eqn:Hpoll.
    apply (wait_for_install_poll_run _ _ d) in Hpoll as
      (Hheap & (evs1 & Hcalls1 & Hevs1 & Hok) & _ & _); [|done].
    destruct r1 as [[b1|]|e|a]; try done.
    + injection Hrun as <- <-. split; [done|]. exists evs1.
      split; [done|]. split; [done|]. by rewrite <-(Hok _ eq_refl).
    + apply IH in Hrun as (Hheap' & evs2 & Hcalls2 & Hevs2 & Hverdict);
        [|by rewrite Hheap].
      split; [congruence|]. exists (evs1 ++ evs2).
      split; [by rewrite Hcalls2, Hcalls1, app_assoc|].
      split; [by apply Forall_app|].
      by rewrite polled_app, verdict_app, <-(Hok _ eq_refl).
  - injection Hrun as <- <-. split; [done|]. exists [].
    rewrite app_nil_r. split; [done|]. split; [done|]. simpl.
    split; [done|]. lia.
Qed.

(** On entries that have their keys the scan raises nothing. *)
Lemma wait_for_install_scan_returns (repository : loc) d (entries : list dict) st :
  heap st !! repository = Some d →
  is_Some (d !! "name") → is_Some (d !! "owner") →
  Forall entry_ok entries →
  ∃ st' o, wait_for_install_scan repository entries st = (st', Ok o).
Proof.
  intros Hd [name Hname] [owner Howner] Hentries. revert st Hd.
  induction Hentries as [|e entries ([name' Hn] & [owner' Ho] & [status Hs]) _ IH];
    intros st Hd; [by eauto|].
  simpl. unfold mbind, M_bind, deref, lift, py_getitem.
  rewrite Hd, Hname, Hn. case_bool_decide; simpl; [|by apply IH].
  rewrite Ho, Howner. simpl. case_bool_decide; simpl; [|by apply IH].
  rewrite Hs. repeat case_bool_decide; [by eauto..|].
  unfold time_sleep. by apply IH.
Qed.

Lemma wait_for_install_poll_returns (repository : loc) log d st :
  (∀ w entries, (ts_get_repositories w).2 = inl entries → Forall entry_ok entries) →
  heap st !! repository = Some d →
  is_Some (d !! "name") → is_Some (d !! "owner") →
  ∃ st' o, wait_for_install_poll repository log st = (st', Ok o).
Proof.
  intros Hentries Hd Hname Howner.
  unfold wait_for_install_poll, try_except_ConnectionError.
  unfold mbind at 1, M_bind at 1, call_get_repositories.
  specialize (Hentries (world st)).
  destruct (ts_get_repositories (world st)) as [w [entries|[message body]]].
  - edestruct (wait_for_install_scan_returns repository d entries) as (st' & o & ->);
      [..|by eauto]; try done. by apply Hentries.
  - by eauto.
Qed.

(** With a clock that moves on at every inventory fetch and does not go back
    in a sleep, and an inventory whose entries have their keys, the loop
    returns: enough fuel gives a result. *)
Lemma wait_for_install_loop_returns (fuel : nat) (repository : loc) log timeout start d st :
  (∀ w, now w ≤ now (sleep 10 w)) →
  (∀ w, now w < now (ts_get_repositories w).1) →
  (∀ w entries, (ts_get_repositories w).2 = inl entries → Forall entry_ok entries) →
  heap st !! repository = Some d →
  is_Some (d !! "name") → is_Some (d !! "owner") →
  (Z.to_nat (timeout * 1000000 - (now (world st) - start)) < fuel)%nat →
  ∃ st' b, wait_for_install_loop fuel repository log timeout start st = (st', Ok b).
Proof.
  intros Hsleep Hfetch Hentries. revert st.
  induction fuel as [|fuel IH]; intros st Hd Hname Howner Hfuel; [lia|].
  simpl. unfold mbind at 1, M_bind at 1, get_now.
  destruct (now (world st) - start <? timeout * 1000000) eqn:Htime.
  - apply Z.ltb_lt in Htime. unfold mbind, M_bind.
    destruct (wait_for_install_poll_returns repository log d st) as (st1 & o & Hpoll);
      try done.
    rewrite Hpoll.
    apply (wait_for_install_poll_run _ _ d) in Hpoll as (Hheap & _ & Hnow & _);
      [|done].
    specialize (Hnow Hsleep Hfetch).
    destruct o as [b|]; [by eauto|].
    apply IH; [by rewrite Hheap|done|done|lia].
  - by eauto.
Qed.

(** [wait_for_install] with its timeout of 3600 seconds. *)
Lemma wait_for_install_returns (fuel : nat) (repository : loc) log d st :
  (∀ w, now w ≤ now (sleep 10 w)) →
  (∀ w, now w < now (ts_get_repositories w).1) →
  (∀ w entries, (ts_get_repositories w).2 = inl entries → Forall entry_ok entries) →
  (Z.to_nat (3600 * 1000000) < fuel)%nat →
  heap st !! repository = Some d →
  is_Some (d !! "name") → is_Some (d !! "owner") →
  ∃ st' b polls,
    wait_for_install fuel repository log 3600 st = (st', Ok b) ∧
    heap st' = heap st ∧
    calls st' = calls st ++ polls ∧ Forall is_poll_event polls ∧
    match verdict d (polled polls) with
    | Some b' => b = b'
    | None => b = false ∧ 3600 * 1000000 ≤ now (world st') - now (world st)
    end.
Proof.
  intros Hsleep Hfetch Hentries Hfuel Hd Hname Howner.
  unfold wait_for_install, mbind, M_bind, get_now.
  destruct (wait_for_install_loop_returns fuel repository log 3600
              (now (world st)) d st) as (st' & b & Hloop); try done.
  { by replace (3600 * 1000000 - (now (world st) - now (world st)))
      with (3600 * 1000000) by lia. }
  exists st', b.
  destruct (wait_for_install_loop_run _ _ _ _ _ d _ _ _ Hd Hloop)
    as (Hheap & polls & Hcalls & Hpolls & Hverdict).
  by exists polls.
Qed.

Lemma decisive_relabelled d label e : decisive (relabelled d label) e = decisive d e.
Proof. unfold decisive. by rewrite !relabelled_lookup_ne. Qed.

Lemma verdict_relabelled d label entries :
  verdict (relabelled d label) entries = verdict d entries.
Proof.
  induction entries as [|e entries IH]; simpl; [done|].
  by rewrite decisive_relabelled, IH.
Qed.

(** With the keys of a completed repository, [log_repository_install_success]
    returns a dictionary, which has keys. *)
Lemma log_repository_install_success_returns d start log :
  is_Some (d !! "name") → is_Some (d !! "owner") →
  is_Some (d !! "changeset_revision") →
  ∃ installed, log_repository_install_success d start log = Ok installed ∧
               dict_keys installed ≠ [].
Proof.
  intros [name Hname] [owner Howner] [revision Hrevision].
  unfold log_repository_install_success, py_getitem.
  rewrite Hname, Howner, Hrevision. destruct log; simpl; by eauto.
Qed.

(** C4, as the code has it.  When the install call of a repository raises a
    [ConnectionError] whose body does not contain the duplicate-install
    phrase and whose message contains [504], the turn of the loop issues no
    further install call: what follows in the call log are inventory fetches
    and sleeps.  It returns, and the first entry met in the fetched
    inventories that has the name and owner of the repository and status
    [Installed] or [Error] decides: on [Installed] the installed list is
    extended and the errored list is not; on [Error], and when 3600 seconds
    have passed without such an entry, the errored list is extended and the
    installed list is not.  The clock moves on at every fetch, and the
    inventory entries have the keys [name], [owner] and [status]. *)
Theorem install_step_gateway_timeout fuel total installation_start log
    (repository : loc) v st st1 d e_message e_body :
  (∀ w, now w ≤ now (sleep 10 w)) →
  (∀ w, now w < now (ts_get_repositories w).1) →
  (∀ w entries, (ts_get_repositories w).2 = inl entries → Forall entry_ok entries) →
  (Z.to_nat (3600 * 1000000) < fuel)%nat →
  heap st !! repository = Some d →
  log_repository_install_start d (S (counter v)) total installation_start log = Ok tt →
  install_repository_revision repository false st
    = (st1, Raise (ConnectionError e_message e_body)) →
  contains default_err_msg e_body = false →
  contains "504" e_message = true →
  ∃ st2 v' polls,
    install_step fuel total installation_start log repository v st = (st2, Ok v') ∧
    calls st2 = calls st1 ++ polls ∧ Forall is_poll_event polls ∧
    skipped_repositories v' = skipped_repositories v ∧
    match verdict d (polled polls) with
    | Some true =>
        (∃ keys, keys ≠ [] ∧
                 installed_repositories v' = installed_repositories v ++ keys) ∧
        errored_repositories v' = errored_repositories v
    | Some false =>
        installed_repositories v' = installed_repositories v ∧
        (∃ keys, keys ≠ [] ∧
                 errored_repositories v' = errored_repositories v ++ keys)
    | None =>
        installed_repositories v' = installed_repositories v ∧
        (∃ keys, keys ≠ [] ∧
                 errored_repositories v' = errored_repositories v ++ keys) ∧
        3600 * 1000000 ≤ now (world st2) - now (world st1)
    end.
Proof.
  intros Hsleep Hfetch Hentries Hfuel Hd Hstart Hinstall Hphrase H504.
  destruct (log_repository_install_start_inv _ _ _ _ _ Hstart)
    as (-> & [name Hname] & [owner Howner] & [revision Hrevision]).
  destruct (install_repository_revision_raises_inv _ _ _ _ _ _ _ Hd Hinstall)
    as (label & Hlabel & _ & Hst1).
  assert (repository < length (heap st))%nat as Hlt by by eapply lookup_lt_Some.
  assert (heap st1 !! repository = Some (relabelled d label)) as Hd1.
  { rewrite Hst1. simpl. by apply list_lookup_insert_eq. }
  assert (relabelled d label !! "name" = Some name) as Hname1
    by by rewrite relabelled_lookup_ne.
  assert (relabelled d label !! "owner" = Some owner) as Howner1
    by by rewrite relabelled_lookup_ne.
  assert (relabelled d label !! "changeset_revision" = Some revision) as Hrevision1
    by by rewrite relabelled_lookup_ne.
  destruct (wait_for_install_returns fuel repository true (relabelled d label) st1)
    as (st2 & success & polls & Hwait & Hheap & Hcalls & Hpolls & Hverdict);
    try done.
  rewrite verdict_relabelled in Hverdict.
  destruct (log_repository_install_success_returns (relabelled d label)
              (now (world st)) true) as (installed & Hsuccess & Hkeys); try done.
  pose (errored := log_repository_install_error (relabelled d label)
                     (now (world st)) (VStr e_body) true).
  exists st2,
    (if success
     then Locals (installed_repositories v ++ dict_keys installed)
                 (skipped_repositories v) (errored_repositories v)
                 (S (counter v)) (Some (now (world st)))
     else Locals (installed_repositories v) (skipped_repositories v)
                 (errored_repositories v ++ dict_keys errored)
                 (S (counter v)) (Some (now (world st)))),
    polls.
  split.
  { rewrite (install_step_start _ _ _ _ _ _ _ d) by done.
    erewrite try_except_ConnectionError_raise
      by (erewrite run_bind_raise; [reflexivity|exact Hinstall]).
    rewrite Hphrase, H504.
    erewrite run_bind_ok; last first.
    { erewrite run_bind_ok by (by apply deref_ok).
      erewrite run_bind_ok by (rewrite (py_getitem_ok _ _ name) by done; reflexivity).
      reflexivity. }
    erewrite run_bind_ok by exact Hwait.
    erewrite run_bind_ok by (apply deref_ok; by rewrite Hheap).
    destruct success; [|done].
    erewrite run_bind_ok by (rewrite Hsuccess; reflexivity).
    done. }
  split; [done|]. split; [done|].
  split; [by destruct success|].
  destruct (verdict d (polled polls)) as [[]|].
  - subst success. simpl. split; [|done]. by exists (dict_keys installed).
  - subst success. simpl. split; [done|]. by exists (dict_keys errored).
  - destruct Hverdict as [-> Htime]. simpl. split; [done|].
    split; [|done]. by exists (dict_keys errored).
Qed.

End Waiting.

(** * Completion and resolution *)

Section Resolution.
Context {World : Type} `{!Galaxy World}.
Implicit Types (st : state World) (d : dict).

(** An invariant of the accumulator of a loop that holds at the start and is
    kept by every turn holds at the end. *)
Lemma for_each_invariant {A S} (P : S → Prop) (xs : list A)
    (body : A → S → M World S) (acc acc' : S) st st' :
  (∀ x a s s' a', x ∈ xs → P a → body x a s = (s', Ok a') → P a') →
  P acc → for_each xs body acc st = (st', Ok acc') → P acc'.
Proof.
  revert acc st. induction xs as [|x xs IH]; intros acc st Hbody Hacc Hrun.
  - by injection Hrun as _ <-.
  - simpl in Hrun. apply run_bind_inv in Hrun as (st1 & acc1 & Hx & Hrun).
    eapply IH; [|by eapply Hbody; [left|..]|done].
    intros x' a s s' a' Hx'. apply Hbody. by right.
Qed.

(** Every repository [filter_installed_repos] returns is one it was given. *)
Lemma filter_installed_repos_subset (repos : list loc) st st'
    (not_installed_repos already_installed_repos : list loc) :
  filter_installed_repos repos st = (st', Ok (not_installed_repos, already_installed_repos)) →
  ∀ l, l ∈ not_installed_repos ∨ l ∈ already_installed_repos → l ∈ repos.
Proof.
  unfold filter_installed_repos. intros Hrun.
  pose (P := λ acc : list loc * list loc, ∀ l, l ∈ acc.1 ∨ l ∈ acc.2 → l ∈ repos).
  change (P (not_installed_repos, already_installed_repos)).
  eapply (for_each_invariant P _ _ ([], [])); [| |exact Hrun].
  2: { intros l [Hl|Hl]; simpl in Hl; by apply elem_of_nil in Hl. }
  intros repo [ni ai] s s' [ni' ai'] Hrepo Hacc Hbody.
  apply run_bind_inv in Hbody as (s1 & installed & _ & Hbody).
  eapply (for_each_invariant P _ _ (ni, ai)); [|exact Hacc|exact Hbody].
  intros installed_tool [ni0 ai0] s0 s0' [ni0' ai0'] _ Hacc0 Hstep.
  apply run_bind_inv in Hstep as (s2 & d1 & _ & Hstep).
  apply run_bind_inv in Hstep as (s3 & d2 & _ & Hstep).
  apply run_bind_inv in Hstep as (s4 & same & _ & Hstep).
  unfold P in *. simpl in *.
  destruct same; injection Hstep as ? <- <-; intros l;
    rewrite ?elem_of_app, ?list_elem_of_singleton; intuition (subst; auto).
Qed.

(** [complete_repo_information] either enters one new dictionary, with the
    keys of a completed repository, at the end of the heap and returns its
    address, or leaves the state as it was. *)
Lemma complete_repo_information_run (tool : loc) default_toolshed_url required st st' r :
  complete_repo_information tool default_toolshed_url required st = (st', r) →
  match r with
  | Ok complete_repo =>
      complete_repo = length (heap st) ∧
      world st' = world st ∧ calls st' = calls st ∧
      ∃ c, heap st' = heap st ++ [c] ∧
           is_Some (c !! "name") ∧ is_Some (c !! "owner") ∧
           is_Some (c !! "tool_shed_url")
  | _ => st' = st
  end.
Proof.
  unfold complete_repo_information, mbind, M_bind, deref, lift, alloc, raise.
  destruct (heap st !! tool) as [t|]; [|by intros [= <- <-]].
  destruct (py_getitem t "name") as [name| |]; [|by intros [= <- <-]..].
  destruct (py_getitem t "owner") as [owner| |]; [|by intros [= <- <-]..].
  match goal with
  | |- context [match ?x with Ok _ => _ | Raise _ => _ | Abort _ => _ end] =>
      destruct x as [[]| |]; [|..|by intros [= <- <-]|by intros [= <- <-]]
  end.
  { by intros [= <- <-]. }
  destruct (format_tool_shed_url _) as [url| |]; [|by intros [= <- <-]..].
  intros [= <- <-]. simpl. repeat (split; [done|]).
  eexists. split; [done|].
  split_and!; eexists; by simplify_map_eq.
Qed.

(** [get_changeset_revisions] keeps the size of the heap and hands back no
    repository other than the one it was given. *)
Lemma get_changeset_revisions_run (repository : loc) force st st' r :
  get_changeset_revisions repository force st = (st', r) →
  length (heap st') = length (heap st) ∧
  ∀ l, r = Ok (Some l) → l = repository.
Proof.
  unfold get_changeset_revisions, mbind, M_bind, deref, lift, store, call_revisions.
  destruct (heap st !! repository) as [d|] eqn:Hd; [|by intros [= <- <-]].
  destruct (_ || force); [|by intros [= <- <-]; split; [|intros l [= <-]]].
  destruct (py_getitem d "tool_shed_url") as [url| |]; [|by intros [= <- <-]..].
  destruct (py_getitem d "name") as [name| |]; [|by intros [= <- <-]..].
  destruct (py_getitem d "owner") as [owner| |]; [|by intros [= <- <-]..].
  destruct (get_ordered_installable_revisions _ _ _ _) as [w revs].
  destruct (last revs) as [latest|]; [|by intros [= <- <-]].
  simpl. rewrite Hd. intros [= <- <-]. simpl.
  split; [by rewrite length_insert|]. by intros l [= <-].
Qed.

(** When the Tool Shed has no installable revision for a repository that
    needs one, [get_changeset_revisions] returns [None]. *)
Lemma get_changeset_revisions_empty (repository : loc) force st c :
  heap st !! repository = Some c →
  is_Some (c !! "tool_shed_url") → is_Some (c !! "name") → is_Some (c !! "owner") →
  py_get c "changeset_revision" = VNone ∨ force = true →
  (get_ordered_installable_revisions
     (py_get c "tool_shed_url") (py_get c "name") (py_get c "owner") (world st)).2 = [] →
  ∃ st', get_changeset_revisions repository force st = (st', Ok None).
Proof.
  intros Hc [url Hurl] [name Hname] [owner Howner] Hneeds.
  unfold py_get at 1 2 3, py_get_default. rewrite Hurl, Hname, Howner. simpl.
  intros Hrevs.
  unfold get_changeset_revisions, mbind, M_bind, deref, lift, call_revisions, py_getitem.
  rewrite Hc, Hurl, Hname, Howner.
  assert (bool_decide (py_get c "changeset_revision" = VNone) || force = true) as ->.
  { destruct Hneeds as [->| ->]; [done|by rewrite orb_true_r]. }
  destruct (get_ordered_installable_revisions _ _ _ _) as [w revs].
  simpl in Hrevs. subst revs. by eauto.
Qed.

(** [set_defaults_in_repo_information] never shrinks the heap, and the
    repository it returns is a dictionary it has entered. *)
Lemma set_defaults_in_repo_information_run start default_toolshed force
    (repository : loc) st st' r :
  set_defaults_in_repo_information start default_toolshed force repository st
    = (st', Ok r) →
  (length (heap st) ≤ length (heap st'))%nat ∧
  ∀ l, r = Some l → (length (heap st) ≤ l < length (heap st'))%nat.
Proof.
  unfold set_defaults_in_repo_information. intros Hrun.
  apply run_bind_inv in Hrun as (st1 & complete_repo & Htry & Hrun).
  unfold try_except_KeyError in Htry.
  unfold mbind at 1, M_bind at 1 in Htry.
  destruct (complete_repo_information repository default_toolshed true st)
    as [s [l| |]] eqn:Hcomplete;
    apply complete_repo_information_run in Hcomplete.
  - destruct Hcomplete as (-> & _ & _ & c & Hheap & _).
    injection Htry as <- <-.
    apply get_changeset_revisions_run in Hrun as [Hlen Hsame].
    rewrite Hlen, Hheap, length_app. simpl. split; [lia|].
    intros l Hl. rewrite (Hsame l) by by rewrite Hl. lia.
  - subst s. destruct e; try done. destruct start as [start|]; [|done].
    unfold mbind, M_bind, deref in Htry.
    destruct (heap st !! repository); [|done].
    injection Htry as <- <-. by injection Hrun as <- <-.
  - done.
Qed.

Lemma list_comprehension_app_inv {A B} (f : A → M World B)
    (xs : list A) (x : A) (ys : list A) st st' rs :
  list_comprehension f (xs ++ x :: ys) st = (st', Ok rs) →
  ∃ st1 rs1 st2 r rs2,
    list_comprehension f xs st = (st1, Ok rs1) ∧
    f x st1 = (st2, Ok r) ∧
    list_comprehension f ys st2 = (st', Ok rs2) ∧
    rs = rs1 ++ r :: rs2.
Proof.
  revert st rs. induction xs as [|x' xs IH]; intros st rs Hrun; simpl in Hrun.
  - apply run_bind_inv in Hrun as (st2 & r & Hx & Hrun).
    apply run_bind_inv in Hrun as (st3 & rs2 & Hys & Hrun).
    injection Hrun as <- <-. by exists st, [], st2, r, rs2.
  - apply run_bind_inv in Hrun as (s1 & r' & Hx' & Hrun).
    apply run_bind_inv in Hrun as (s2 & rs' & Hrest & Hrun).
    injection Hrun as <- <-.
    apply IH in Hrest as (st1 & rs1 & st2 & r & rs2 & Hxs & Hx & Hys & ->).
    exists st1, (r' :: rs1), st2, r, rs2. split; [|done].
    simpl. erewrite run_bind_ok by exact Hx'. by erewrite run_bind_ok by exact Hxs.
Qed.

Lemma list_comprehension_length {A B} (f : A → M World B) (xs : list A) st st' rs :
  list_comprehension f xs st = (st', Ok rs) → length rs = length xs.
Proof.
  revert st rs. induction xs as [|x xs IH]; intros st rs Hrun; simpl in Hrun.
  - by injection Hrun as _ <-.
  - apply run_bind_inv in Hrun as (s1 & r & _ & Hrun).
    apply run_bind_inv in Hrun as (s2 & rs' & Hrest & Hrun).
    injection Hrun as <- <-. simpl. by rewrite (IH _ _ Hrest).
Qed.

(** The repositories of [repository_list] are dictionaries entered while the
    list was built. *)
Lemma repository_list_fresh start default_toolshed force (flattened : list loc) st st' rs :
  list_comprehension
    (set_defaults_in_repo_information start default_toolshed force) flattened st
    = (st', Ok rs) →
  (length (heap st) ≤ length (heap st'))%nat ∧
  ∀ l, l ∈ not_none rs → (length (heap st) ≤ l < length (heap st'))%nat.
Proof.
  revert st rs. induction flattened as [|x xs IH]; intros st rs Hrun; simpl in Hrun.
  - injection Hrun as <- <-. split; [done|]. by intros l ?%elem_of_nil.
  - apply run_bind_inv in Hrun as (s1 & r & Hx & Hrun).
    apply run_bind_inv in Hrun as (s2 & rs' & Hrest & Hrun).
    injection Hrun as <- <-.
    apply set_defaults_in_repo_information_run in Hx as [Hlen Hr].
    apply IH in Hrest as [Hlen' Hrs]. split; [lia|].
    intros l. unfold not_none. simpl. destruct r as [l'|]; simpl.
    + intros [->|Hl]%elem_of_cons.
      * specialize (Hr l' eq_refl). lia.
      * specialize (Hrs l Hl). lia.
    + intros Hl. specialize (Hrs l Hl). lia.
Qed.

(** C6.  A repository that needs a revision (it has none, or the latest is
    forced) and for which the Tool Shed returns no installable revision is
    dropped: [set_defaults_in_repo_information] returns [None] for it, its
    place in [repository_list_with_none] holds [None], and its completed
    dictionary is neither in [repository_list] nor in one of the two lists
    of [filter_installed_repos], the lists whose repositories the skip loop
    and the install loop enter in the skipped, installed and errored
    lists. *)
Theorem unresolved_repository_dropped start default_toolshed force
    (pre : list loc) (repository : loc) (post : list loc)
    st0 st1 rs1 st2 (complete_repo : loc) c :
  list_comprehension
    (set_defaults_in_repo_information start default_toolshed force) pre st0
    = (st1, Ok rs1) →
  complete_repo_information repository default_toolshed true st1
    = (st2, Ok complete_repo) →
  heap st2 !! complete_repo = Some c →
  py_get c "changeset_revision" = VNone ∨ force = true →
  (get_ordered_installable_revisions
     (py_get c "tool_shed_url") (py_get c "name") (py_get c "owner") (world st2)).2 = [] →
  (∃ st3, set_defaults_in_repo_information start default_toolshed force repository st1
          = (st3, Ok None)) ∧
  ∀ st4 rs st5 not_installed_repos already_installed_repos,
    list_comprehension
      (set_defaults_in_repo_information start default_toolshed force)
      (pre ++ repository :: post) st0 = (st4, Ok rs) →
    filter_installed_repos (not_none rs) st4
      = (st5, Ok (not_installed_repos, already_installed_repos)) →
    rs !! length pre = Some None ∧
    (complete_repo ∉ not_none rs) ∧
    (complete_repo ∉ not_installed_repos) ∧
    (complete_repo ∉ already_installed_repos).
Proof.
  intros Hpre Hcomplete Hc Hneeds Hrevs.
  pose proof (complete_repo_information_run _ _ _ _ _ _ Hcomplete)
    as (-> & _ & _ & c' & Hheap & Hname & Howner & Hurl).
  assert (c' = c) as ->.
  { rewrite Hheap, lookup_app_r, Nat.sub_diag in Hc by done. by injection Hc. }
  destruct (get_changeset_revisions_empty (length (heap st1)) force st2 c)
    as (st3 & Hresolve); try done.
  assert (set_defaults_in_repo_information start default_toolshed force repository st1
          = (st3, Ok None)) as Hdrop.
  { unfold set_defaults_in_repo_information.
    erewrite run_bind_ok; last first.
    { unfold try_except_KeyError. by erewrite run_bind_ok by exact Hcomplete. }
    exact Hresolve. }
  split; [by exists st3|].
  intros st4 rs st5 not_installed_repos already_installed_repos Hlist Hfilter.
  apply list_comprehension_app_inv in Hlist
    as (st1' & rs1' & st3' & r & rs2 & Hpre' & Hdrop' & Hpost & ->).
  rewrite Hpre in Hpre'. injection Hpre' as <- <-.
  rewrite Hdrop in Hdrop'. injection Hdrop' as <- <-.
  assert (length (heap st1) ∉ not_none (rs1 ++ None :: rs2)) as Hfresh.
  { unfold not_none. rewrite omap_app. simpl. fold (not_none rs1) (not_none rs2).
    intros [Hin|Hin]%elem_of_app.
    - apply repository_list_fresh in Hpre as [_ Hbound].
      specialize (Hbound _ Hin). lia.
    - apply repository_list_fresh in Hpost as [_ Hbound].
      specialize (Hbound _ Hin).
      apply get_changeset_revisions_run in Hresolve as [Hlen _].
      rewrite Hlen, Hheap, length_app in Hbound. simpl in Hbound. lia. }
  split.
  { rewrite lookup_app_r, (list_comprehension_length _ _ _ _ _ Hpre), Nat.sub_diag;
      [done|]. by rewrite (list_comprehension_length _ _ _ _ _ Hpre). }
  split; [done|].
  pose proof (filter_installed_repos_subset _ _ _ _ _ Hfilter) as Hsub.
  split; intros Hin; apply Hfresh, Hsub; [by left|by right].
Qed.

End Resolution.

(** * The properties on concrete inputs *)

(** ** Records for [the_same_repository] *)

Lemma the_same_repository_symmetric_exact_witness :
  the_same_repository record_a record_b = the_same_repository record_b record_a ∧
  the_same_repository (<["name" := VStr "y"]> record_a) record_b = Ok false.
Proof.
  destruct (the_same_repository_symmetric_exact record_a record_b)
    as (Hsym & _ & Hchange).
  - vm_compute. exact I.
  - vm_compute. exact I.
  - split; [exact Hsym|].
    apply (Hchange "name" (VStr "y")).
    + apply (bool_decide_unpack _). vm_compute. exact I.
    + vm_compute. reflexivity.
    + vm_compute. discriminate.
Defined.

Lemma the_same_repository_url_none_witness :
  the_same_repository record_a record_no_url = Raise TypeError.
Proof.
  destruct (the_same_repository_url_none record_a record_no_url)
    as (Hnone & _ & _).
  - vm_compute. reflexivity.
  - vm_compute. reflexivity.
  - vm_compute. reflexivity.
  - apply Hnone. right. split; vm_compute; reflexivity.
Defined.

(** ** Install calls that raise *)

Lemma install_repository_revision_mutates_witness :
  heap (install_repository_revision 0%nat false duplicate_state).1
    = [<["new_tool_panel_section_label" := VNone]>
         (delete "tool_panel_section_label" wanted)].
Proof.
  destruct (install_repository_revision_mutates 0%nat false wanted VNone
              duplicate_state
              (install_repository_revision 0%nat false duplicate_state).1
              (install_repository_revision 0%nat false duplicate_state).2)
    as (Hheap & _).
  - reflexivity.
  - vm_compute. reflexivity.
  - by destruct (install_repository_revision 0%nat false duplicate_state).
  - exact Hheap.
Defined.

Lemma install_step_duplicate_phrase_witness :
  ∃ st' v', install_step 1 1 0 true 0%nat first_turn duplicate_state = (st', Ok v') ∧
            installed_repositories v' = [] ∧
            skipped_repositories v' = [] ∧
            errored_repositories v' = [].
Proof.
  destruct (install_step_duplicate_phrase 1 1 0 true 0%nat first_turn
              duplicate_state
              (install_repository_revision 0%nat false duplicate_state).1
              wanted "400 Bad Request" default_err_msg)
    as (v' & Hstep & Hinstalled & Hskipped & Herrored & _).
  - reflexivity.
  - vm_compute. reflexivity.
  - vm_compute. reflexivity.
  - vm_compute. reflexivity.
  - by exists (install_repository_revision 0%nat false duplicate_state).1, v'.
Defined.

(** C4 does not hold as stated.  In the first world the install call raises
    a [ConnectionError] whose message contains [504], the one inventory
    fetch of the polling, made in the first second, delivers an entry with
    the name and owner of the repository and status [Installed], and yet the
    turn extends the errored list and not the installed list.  In the second
    world the message contains [504] and the inventory is not fetched at
    all. *)
Lemma install_step_gateway_timeout_counterexample :
  (∃ st1 st2 v',
     install_repository_revision 0%nat false
         (start_state [wanted] error_then_installed_world)
       = (st1, Raise (ConnectionError "504 Gateway Time-out" "")) ∧
     contains "504" "504 Gateway Time-out" = true ∧
     install_step 2 1 0 true 0%nat first_turn
         (start_state [wanted] error_then_installed_world) = (st2, Ok v') ∧
     entry "x" "o" "Installed" ∈ polled (calls st2) ∧
     decisive wanted (entry "x" "o" "Installed") = Some true ∧
     now (world st2) - now (world st1) < 3600 * 1000000 ∧
     installed_repositories v' = [] ∧
     errored_repositories v' ≠ []) ∧
  (∃ st1 st2 v',
     install_repository_revision 0%nat false
         (start_state [wanted] timeout_and_phrase_world)
       = (st1, Raise (ConnectionError "504 Gateway Time-out" default_err_msg)) ∧
     install_step 2 1 0 true 0%nat first_turn
         (start_state [wanted] timeout_and_phrase_world) = (st2, Ok v') ∧
     calls st2 = calls st1 ∧
     polled (calls st2) = [] ∧
     installed_repositories v' = [] ∧
     errored_repositories v' = []).
Proof.
  split.
  - eexists _, _, _. split; [vm_compute; reflexivity|].
    split; [vm_compute; reflexivity|].
    split; [vm_compute; reflexivity|].
    split; [apply (bool_decide_unpack _); vm_compute; exact I|].
    split; [vm_compute; reflexivity|].
    split; [vm_compute; reflexivity|].
    split; [vm_compute; reflexivity|].
    vm_compute. discriminate.
  - eexists _, _, _. split; [vm_compute; reflexivity|].
    split; [vm_compute; reflexivity|].
    split; [vm_compute; reflexivity|].
    split; [vm_compute; reflexivity|].
    split; vm_compute; reflexivity.
Qed.

Lemma install_step_gateway_timeout_witness :
  ∃ st2 v',
    install_step Steady.hour_of_fuel 1 0 true 0%nat first_turn Steady.steady_state
      = (st2, Ok v') ∧
    skipped_repositories v' = [].
Proof.
  destruct (install_step_gateway_timeout Steady.hour_of_fuel 1 0 true 0%nat first_turn
              Steady.steady_state
              (install_repository_revision 0%nat false Steady.steady_state).1
              wanted "504 Gateway Time-out" "")
    as (st2 & v' & polls & Hstep & _ & _ & Hskipped & _).
  - intros w. simpl. lia.
  - intros w. simpl. lia.
  - intros w entries [= <-]. repeat constructor; vm_compute; eauto.
  - unfold Steady.hour_of_fuel. lia.
  - reflexivity.
  - vm_compute. reflexivity.
  - vm_compute. reflexivity.
  - vm_compute. reflexivity.
  - vm_compute. reflexivity.
  - by exists st2, v'.
Defined.

(** ** A repository the Tool Shed does not know *)

Lemma unresolved_repository_dropped_witness :
  ∃ st3, set_defaults_in_repo_information None toolshed false 0%nat unknown_state
         = (st3, Ok None).
Proof.
  refine (proj1 (unresolved_repository_dropped None toolshed false [] 0%nat []
                   unknown_state unknown_state []
                   (complete_repo_information 0%nat toolshed true unknown_state).1
                   1%nat
                   (<["changeset_revision" := VNone]>
                    (<["tool_shed_url" := VStr toolshed]>
                    (<["tool_panel_section_label" := VNone]>
                    (<["tool_panel_section_id" := VStr "s"]>
                    (<["owner" := VStr "o"]>
                    (<["name" := VStr "x"]> ∅))))))
                   _ _ _ _ _)).
  - reflexivity.
  - vm_compute. reflexivity.
  - vm_compute. reflexivity.
  - left. vm_compute. reflexivity.
  - vm_compute. reflexivity.
Defined.

(** * Further properties *)

(** ** Strings *)

Lemma append_nil_r (s : string) : s +:+ "" = s.
Proof. induction s as [|c s IH]; [done|]. by rewrite append_cons, IH. Qed.

Lemma append_assoc (a b c : string) : (a +:+ b) +:+ c = a +:+ b +:+ c.
Proof. induction a as [|x a IH]; [done|]. by rewrite !append_cons, IH. Qed.

Lemma rev_app_spec (s acc : string) :
  String.rev_app s acc = String.rev s +:+ acc.
Proof.
  unfold String.rev. revert acc. induction s as [|c s IH]; intros acc; simpl; [done|].
  rewrite IH, (IH (String c "")), append_assoc. done.
Qed.

Lemma rev_cons (c : Ascii.ascii) (s : string) :
  String.rev (String c s) = String.rev s +:+ String c "".
Proof. unfold String.rev at 1. simpl. by rewrite rev_app_spec. Qed.

Lemma rev_append (a b : string) :
  String.rev (a +:+ b) = String.rev b +:+ String.rev a.
Proof.
  induction a as [|c a IH].
  - by rewrite append_nil_r.
  - by rewrite append_cons, !rev_cons, IH, append_assoc.
Qed.

Lemma rev_involutive (s : string) : String.rev (String.rev s) = s.
Proof.
  induction s as [|c s IH]; [done|]. by rewrite rev_cons, rev_append, IH.
Qed.

(** [endswith s suffix] holds exactly when [s] ends with [suffix]. *)
Lemma endswith_spec (s suffix : string) :
  endswith s suffix = true ↔ ∃ pre, s = pre +:+ suffix.
Proof.
  unfold endswith. rewrite prefix_spec. split.
  - intros [post Hpost]. exists (String.rev post).
    by rewrite <-(rev_involutive s), Hpost, rev_append, rev_involutive.
  - intros [pre ->]. exists (String.rev pre). by rewrite rev_append.
Qed.

Lemma contains_refl (s : string) : contains s s = true.
Proof. apply contains_spec. exists "", "". by rewrite append_nil_r. Qed.

(** ** [format_tool_shed_url] *)

Lemma format_tool_shed_url_shape (s : string) :
  ∃ scheme slash,
    format_tool_shed_url (VStr s) = Ok (VStr (scheme +:+ s +:+ slash)) ∧
    (scheme = "" ∨ scheme = "https://") ∧
    (slash = "" ∨ slash = "/") ∧
    endswith (scheme +:+ s +:+ slash) "/" = true ∧
    String.prefix "http" (scheme +:+ s +:+ slash) = true.
Proof.
  unfold format_tool_shed_url.
  destruct (endswith s "/") eqn:Hslash.
  - destruct (String.prefix "http" s) eqn:Hscheme.
    + exists "", "". rewrite append_nil_r. by eauto 10.
    + exists "https://", "". rewrite append_nil_r.
      split; [done|]. split; [by right|]. split; [by left|]. split.
      * apply endswith_spec in Hslash as [pre ->]. apply endswith_spec.
        exists ("https://" +:+ pre). by rewrite append_assoc.
      * apply prefix_spec. by exists ("s://" +:+ s).
  - assert (endswith (s +:+ "/") "/" = true) as Hends
      by (apply endswith_spec; by exists s).
    destruct (String.prefix "http" (s +:+ "/")) eqn:Hscheme.
    + exists "", "/". by eauto 10.
    + exists "https://", "/".
      split; [done|]. split; [by right|]. split; [by right|]. split.
      * apply endswith_spec. exists ("https://" +:+ s). by rewrite append_assoc.
      * apply prefix_spec. by exists ("s://" +:+ s +:+ "/").
Qed.

(** X1.  For every string [format_tool_shed_url] returns a string that ends
    with a slash and starts with [http], and that is the argument itself
    with at most the scheme [https://] put before it and a slash put after
    it. *)
Theorem format_tool_shed_url_normal_form (s : string) :
  ∃ scheme slash,
    format_tool_shed_url (VStr s) = Ok (VStr (scheme +:+ s +:+ slash)) ∧
    (scheme = "" ∨ scheme = "https://") ∧
    (slash = "" ∨ slash = "/") ∧
    endswith (scheme +:+ s +:+ slash) "/" = true ∧
    String.prefix "http" (scheme +:+ s +:+ slash) = true.
Proof. exact (format_tool_shed_url_shape s). Qed.

(** X2.  The strings [format_tool_shed_url] leaves as they are are those
    that end with a slash and start with [http]; hence formatting a
    formatted URL again changes nothing. *)
Theorem format_tool_shed_url_fixed_points (s : string) :
  (format_tool_shed_url (VStr s) = Ok (VStr s) ↔
     endswith s "/" = true ∧ String.prefix "http" s = true) ∧
  (∀ u, format_tool_shed_url (VStr s) = Ok u → format_tool_shed_url u = Ok u).
Proof.
  assert (∀ t, endswith t "/" = true → String.prefix "http" t = true →
               format_tool_shed_url (VStr t) = Ok (VStr t)) as Hfixed.
  { intros t Hslash Hscheme. unfold format_tool_shed_url. by rewrite Hslash, Hscheme. }
  split.
  - split; [|by intros []; apply Hfixed].
    destruct (format_tool_shed_url_shape s)
      as (scheme & slash & Hrun & _ & _ & Hslash & Hscheme).
    rewrite Hrun. intros [= Heq]. by rewrite Heq in Hslash, Hscheme.
  - intros u.
    destruct (format_tool_shed_url_shape s)
      as (scheme & slash & Hrun & _ & _ & Hslash & Hscheme).
    rewrite Hrun. intros [= <-]. by apply Hfixed.
Qed.

(** ** [the_same_repository] and the format of the URL *)

(** X3.  [the_same_repository] does not tell a record from the same record
    with its registry URL formatted: when two records agree on
    [changeset_revision], [name] and [owner] and the URL of one is the
    formatted URL of the other, the result is [True], in both orders.  In
    particular a record with a URL string is the same as itself. *)
Theorem the_same_repository_modulo_format (a b : dict) (s : string) :
  py_get a "changeset_revision" = py_get b "changeset_revision" →
  py_get a "name" = py_get b "name" →
  py_get a "owner" = py_get b "owner" →
  url_of a = VStr s →
  format_tool_shed_url (VStr s) = Ok (url_of b) →
  the_same_repository a b = Ok true ∧
  the_same_repository b a = Ok true ∧
  the_same_repository a a = Ok true.
Proof.
  intros Hrev Hname Howner Ha Hb.
  destruct (format_tool_shed_url_shape s) as (scheme & slash & Hrun & _).
  rewrite Hrun in Hb. injection Hb as Hb.
  assert (contains s (scheme +:+ s +:+ slash) = true) as Hsub
    by (apply contains_spec; by exists scheme, slash).
  rewrite !the_same_repository_agree by done.
  rewrite Ha, <-Hb. simpl. rewrite Hsub, contains_refl.
  by destruct (contains (scheme +:+ s +:+ slash) s).
Qed.

(** ** [complete_repo_information] *)

Section Completion.
Context {World : Type} `{!Galaxy World}.
Implicit Types (st : state World) (d t c : dict).

(** X4.  When [complete_repo_information] returns, the repository is a new
    dictionary at the end of the heap, with exactly six keys: [name] and
    [owner] as in the tool, the two panel-section entries and
    [changeset_revision] as [tool.get] gives them ([None] when absent), and
    [tool_shed_url] the formatted URL of the tool or, without one, of the
    default.  Every other key of the tool is left behind; the tool itself,
    the other dictionaries, the world and the call log are untouched. *)
Theorem complete_repo_information_result (tool : loc) default_toolshed_url required
    st st' (complete_repo : loc) :
  complete_repo_information tool default_toolshed_url required st
    = (st', Ok complete_repo) →
  ∃ t c u,
    heap st !! tool = Some t ∧
    complete_repo = length (heap st) ∧
    heap st' = heap st ++ [c] ∧
    world st' = world st ∧ calls st' = calls st ∧
    dom c = list_to_set ["name"; "owner"; "tool_panel_section_id";
                         "tool_panel_section_label"; "tool_shed_url";
                         "changeset_revision"] ∧
    c !! "name" = t !! "name" ∧
    c !! "owner" = t !! "owner" ∧
    c !! "tool_panel_section_id" = Some (py_get t "tool_panel_section_id") ∧
    c !! "tool_panel_section_label" = Some (py_get t "tool_panel_section_label") ∧
    c !! "changeset_revision" = Some (py_get t "changeset_revision") ∧
    format_tool_shed_url (py_get_default t "tool_shed_url" (VStr default_toolshed_url))
      = Ok u ∧
    c !! "tool_shed_url" = Some u.
Proof.
  unfold complete_repo_information, mbind, M_bind, deref, lift, alloc, raise, py_getitem.
  destruct (heap st !! tool) as [t|]; [|done].
  destruct (t !! "name") as [name|] eqn:Hname; [|done].
  destruct (t !! "owner") as [owner|] eqn:Howner; [|done].
  match goal with
  | |- context [match ?x with Ok _ => _ | Raise _ => _ | Abort _ => _ end] =>
      destruct x as [[]| |]; [done| |done..]
  end.
  destruct (format_tool_shed_url _) as [u| |] eqn:Hurl; [|done..].
  intros [= <- <-]. eexists t, _, u. simpl.
  split; [done|]. split; [done|]. split; [done|]. split; [done|]. split; [done|].
  split. { rewrite !dom_insert_L, dom_empty_L. set_solver. }
  split_and!; by simplify_map_eq.
Qed.

(** X5.  A tool without [name] makes [complete_repo_information] raise
    [KeyError('name')], and a tool with a name and without [owner]
    [KeyError('owner')]; in both cases nothing has changed. *)
Theorem complete_repo_information_missing_key (tool : loc) default_toolshed_url required
    st t :
  heap st !! tool = Some t →
  (t !! "name" = None →
   complete_repo_information tool default_toolshed_url required st
     = (st, Raise (KeyError "name"))) ∧
  (is_Some (t !! "name") → t !! "owner" = None →
   complete_repo_information tool default_toolshed_url required st
     = (st, Raise (KeyError "owner"))).
Proof.
  intros Ht.
  unfold complete_repo_information, mbind, M_bind, deref, lift, py_getitem.
  rewrite Ht. split.
  - by intros ->.
  - by intros [name ->] ->.
Qed.

Lemma format_tool_shed_url_outcome (v : value) :
  (∃ u, format_tool_shed_url v = Ok u) ∨ format_tool_shed_url v = Raise AttributeError.
Proof. destruct v; simpl; by eauto. Qed.

(** X6.  For a tool with a name string and an owner,
    [complete_repo_information] raises a [KeyError] exactly when panel
    information is required, [tool_panel_section_id] and
    [tool_panel_section_label] are both absent or [None], and the name does
    not contain [data_manager]; then nothing has changed. *)
Theorem complete_repo_information_section_rule (tool : loc) default_toolshed_url required
    st t (name : string) :
  heap st !! tool = Some t →
  t !! "name" = Some (VStr name) →
  is_Some (t !! "owner") →
  ((∃ message,
      complete_repo_information tool default_toolshed_url required st
        = (st, Raise (KeyError message))) ↔
   required = true ∧
   py_get t "tool_panel_section_id" = VNone ∧
   py_get t "tool_panel_section_label" = VNone ∧
   contains "data_manager" name = false) ∧
  (∀ st' message,
     complete_repo_information tool default_toolshed_url required st
       = (st', Raise (KeyError message)) → st' = st).
Proof.
  intros Ht Hname [owner Howner].
  unfold complete_repo_information, mbind, M_bind, deref, lift, alloc, raise, py_getitem.
  rewrite Ht, Hname, Howner. simpl.
  destruct (format_tool_shed_url_outcome
              (py_get_default t "tool_shed_url" (VStr default_toolshed_url)))
    as [[u ->]| ->].
  all: destruct required; simpl.
  all: try (case_bool_decide as Hid; simpl).
  all: try (case_bool_decide as Hlabel; simpl).
  all: try (destruct (contains "data_manager" name) eqn:Hdm; simpl).
  all: split; [|by intros ?? [= <- _]].
  all: split; [intros [message [=]]|]; try by eauto.
  all: by intros (? & ? & ? & ?).
Qed.

End Completion.

(** ** [get_changeset_revisions] *)

Section Revisions.
Context {World : Type} `{!Galaxy World}.
Implicit Types (st : state World) (d : dict).

Lemma get_changeset_revisions_resolves (repository : loc) force st d url name owner :
  heap st !! repository = Some d →
  d !! "tool_shed_url" = Some url → d !! "name" = Some name → d !! "owner" = Some owner →
  py_get d "changeset_revision" = VNone ∨ force = true →
  get_changeset_revisions repository force st =
    let wr := get_ordered_installable_revisions url name owner (world st) in
    (State (match last wr.2 with
            | Some latest => <[repository := <["changeset_revision" := VStr latest]> d]> (heap st)
            | None => heap st
            end)
           wr.1 (calls st ++ [EvRevisions url name owner wr.2]),
     Ok (match last wr.2 with Some _ => Some repository | None => None end)).
Proof.
  intros Hd Hurl Hname Howner Hneeds.
  unfold get_changeset_revisions, mbind, M_bind, deref, lift, store, call_revisions, py_getitem.
  rewrite Hd, Hurl, Hname, Howner.
  assert (bool_decide (py_get d "changeset_revision" = VNone) || force = true) as ->.
  { destruct Hneeds as [->| ->]; [done|by rewrite orb_true_r]. }
  destruct (get_ordered_installable_revisions url name owner (world st)) as [w revs].
  simpl. destruct (last revs); [|done]. simpl. by rewrite Hd.
Qed.

(** X7.  [get_changeset_revisions] asks the Tool Shed exactly when the
    repository has no revision or the latest revision is forced.  With a
    revision and without force the repository is handed back and nothing has
    changed: no call is made. *)
Theorem get_changeset_revisions_asks_when_needed (repository : loc) force st d :
  heap st !! repository = Some d →
  is_Some (d !! "tool_shed_url") → is_Some (d !! "name") → is_Some (d !! "owner") →
  (py_get d "changeset_revision" ≠ VNone ∧ force = false →
   get_changeset_revisions repository force st = (st, Ok (Some repository))) ∧
  (calls (get_changeset_revisions repository force st).1 = calls st ↔
   py_get d "changeset_revision" ≠ VNone ∧ force = false).
Proof.
  intros Hd [url Hurl] [name Hname] [owner Howner].
  assert (py_get d "changeset_revision" ≠ VNone ∧ force = false →
          get_changeset_revisions repository force st = (st, Ok (Some repository)))
    as Hkeep.
  { intros [Hrev ->].
    unfold get_changeset_revisions, mbind, M_bind, deref. rewrite Hd.
    by rewrite bool_decide_eq_false_2. }
  split; [done|]. split; [|by intros ->%Hkeep].
  intros Hcalls.
  destruct (decide (py_get d "changeset_revision" = VNone)) as [Hnone|Hsome].
  - rewrite (get_changeset_revisions_resolves _ _ _ d url name owner) in Hcalls
      by eauto.
    simpl in Hcalls. apply (f_equal length) in Hcalls.
    rewrite length_app in Hcalls. simpl in Hcalls. lia.
  - destruct force; [|done].
    rewrite (get_changeset_revisions_resolves _ _ _ d url name owner) in Hcalls
      by eauto.
    simpl in Hcalls. apply (f_equal length) in Hcalls.
    rewrite length_app in Hcalls. simpl in Hcalls. lia.
Qed.

(** X8.  When [get_changeset_revisions] asks the Tool Shed and the answer is
    not empty, the repository is handed back with its [changeset_revision]
    set to the last revision of the answer: the change is made in the
    repository's own dictionary, its other keys and the other dictionaries
    stay as they are, and the one call made is the query for the URL, name
    and owner of the repository. *)
Theorem get_changeset_revisions_takes_last (repository : loc) force st d
    url name owner (earlier : list string) (latest : string) :
  heap st !! repository = Some d →
  d !! "tool_shed_url" = Some url → d !! "name" = Some name → d !! "owner" = Some owner →
  py_get d "changeset_revision" = VNone ∨ force = true →
  (get_ordered_installable_revisions url name owner (world st)).2 = earlier ++ [latest] →
  ∃ st',
    get_changeset_revisions repository force st = (st', Ok (Some repository)) ∧
    heap st' = <[repository := <["changeset_revision" := VStr latest]> d]> (heap st) ∧
    calls st' = calls st ++ [EvRevisions url name owner (earlier ++ [latest])].
Proof.
  intros Hd Hurl Hname Howner Hneeds Hrevs.
  rewrite (get_changeset_revisions_resolves _ _ _ d url name owner) by done.
  cbv zeta. rewrite Hrevs, last_snoc. by eauto.
Qed.

End Revisions.

(** ** [install_repository_revision], again *)

(** X9.  [install_repository_revision] cannot be repeated on a repository:
    whatever the outcome of a first call, a second call on the same
    dictionary finds no [tool_panel_section_label], raises [KeyError] and
    issues no install call. *)
Theorem install_repository_revision_twice {World : Type} `{!Galaxy World}
    (repository : loc) (log log' : bool) (d : dict) (st st1 : state World)
    (r : outcome response) :
  heap st !! repository = Some d →
  is_Some (d !! "tool_panel_section_label") →
  install_repository_revision repository log st = (st1, r) →
  install_repository_revision repository log' st1
    = (st1, Raise (KeyError "tool_panel_section_label")).
Proof.
  intros Hd [label Hlabel] Hfirst.
  assert (repository < length (heap st))%nat as Hlt by by eapply lookup_lt_Some.
  rewrite (install_repository_revision_run _ _ d label) in Hfirst by done.
  cbv zeta in Hfirst. injection Hfirst as <- _.
  apply (install_repository_revision_no_label _ _ (relabelled d label)).
  - simpl. by apply list_lookup_insert_eq.
  - unfold relabelled. by rewrite lookup_insert_ne, lookup_delete_eq.
Qed.

(** ** [_flatten_repo_info], again *)

Section FlatteningAgain.
Context {World : Type} `{!Galaxy World}.
Implicit Types (st : state World) (d : dict) (l : loc).

(** An invariant of the accumulator and the state of a loop. *)
Lemma for_each_invariant_state {A S} (P : S → state World → Prop) (xs : list A)
    (body : A → S → M World S) (acc acc' : S) st st' :
  (∀ x a s s' a', P a s → body x a s = (s', Ok a') → P a' s') →
  P acc st → for_each xs body acc st = (st', Ok acc') → P acc' st'.
Proof.
  revert acc st. induction xs as [|x xs IH]; intros acc st Hbody Hacc Hrun.
  - by injection Hrun as <- <-.
  - simpl in Hrun. apply run_bind_inv in Hrun as (st1 & acc1 & Hx & Hrun).
    eapply IH; [done| |done]. by eapply Hbody.
Qed.

(** The dictionary at [l] has no [revisions]. *)
Local Abbreviation flat st l := (∃ d, heap st !! l = Some d ∧ d !! "revisions" = None).

Lemma flat_insert st l l' d' :
  flat st l → d' !! "revisions" = None →
  flat (State (<[l' := d']> (heap st)) (world st) (calls st)) l.
Proof.
  intros (d & Hd & Hrevs) Hd'. simpl.
  destruct (decide (l = l')) as [->|Hne].
  - exists d'. split; [|done]. apply list_lookup_insert_eq. by eapply lookup_lt_Some.
  - exists d. by rewrite list_lookup_insert_ne.
Qed.

(** After [_flatten_repo_info] no dictionary of the result has
    [revisions]. *)
Lemma flatten_repo_info_flat (repositories : list loc) st st' (flattened : list loc) :
  _flatten_repo_info repositories st = (st', Ok flattened) →
  ∀ l, l ∈ flattened → flat st' l.
Proof.
  unfold _flatten_repo_info.
  apply (for_each_invariant_state (λ acc s, ∀ l, l ∈ acc → flat s l));
    [|by intros l ?%elem_of_nil].
  intros repo_info acc s s' acc' Hacc Hbody.
  apply run_bind_inv in Hbody as (s1 & d & Hd & Hbody).
  unfold deref in Hd. destruct (heap s !! repo_info) as [d0|] eqn:Hd0; [|done].
  injection Hd as <- <-.
  destruct (d0 !! "revisions") as [revisions|] eqn:Hrevs.
  - apply run_bind_inv in Hbody as (s2 & [] & Hstore & Hbody).
    unfold store in Hstore. rewrite Hd0 in Hstore. injection Hstore as <-.
    apply run_bind_inv in Hbody as (s3 & revs & Hiter & Hbody).
    injection Hiter as <- Hiter.
    assert (delete "revisions" d0 !! "revisions" = None) as Hnew
      by apply lookup_delete_eq.
    eapply (for_each_invariant_state
              (λ acc s, (∀ l, l ∈ acc → flat s l) ∧ flat s repo_info))
      in Hbody as [Hres _]; [exact Hres| |].
    + clear. intros revision acc s s' acc' [Hacc Hrepo] Hbody.
      apply run_bind_inv in Hbody as (s1 & d & Hd & Hbody).
      unfold deref in Hd. destruct (heap s !! repo_info) as [d0|] eqn:Hd0; [|done].
      injection Hd as <- <-.
      apply run_bind_inv in Hbody as (s2 & [] & Hstore & Hbody).
      unfold store in Hstore. rewrite Hd0 in Hstore. injection Hstore as <-.
      injection Hbody as <- <-.
      assert (d0 !! "revisions" = None) as Hrevs
        by (by destruct Hrepo as (d1 & [= <-] & Hrevs)).
      assert (flat s repo_info) as Hflat by by exists d0.
      assert (<["changeset_revision" := revision]> d0 !! "revisions" = None) as Hnew
        by by rewrite lookup_insert_ne.
      split; [|by apply flat_insert].
      intros l [Hl| ->%list_elem_of_singleton]%elem_of_app;
        apply flat_insert; auto.
    + split; [intros l Hl; apply flat_insert; auto|].
      exists (delete "revisions" d0). split; [|done]. simpl.
      apply list_lookup_insert_eq. by eapply lookup_lt_Some.
  - injection Hbody as <- <-.
    intros l [Hl| ->%list_elem_of_singleton]%elem_of_app; [by auto|by exists d0].
Qed.

(** Tools without [revisions] pass through [_flatten_repo_info]. *)
Lemma flatten_repo_info_of_flat (repositories : list loc) st :
  (∀ l, l ∈ repositories → flat st l) →
  _flatten_repo_info repositories st = (st, Ok repositories).
Proof.
  unfold _flatten_repo_info. intros Hflat.
  match goal with
  | |- for_each _ ?body _ _ = _ =>
      cut (∀ acc, for_each repositories body acc st = (st, Ok (acc ++ repositories)))
  end.
  { intros Hacc. apply Hacc. }
  induction repositories as [|l ls IH]; intros acc; simpl.
  - by rewrite app_nil_r.
  - destruct (Hflat l) as (d & Hd & Hrevs); [by left|].
    erewrite run_bind_ok; last first.
    { erewrite run_bind_ok by (by apply deref_ok). rewrite Hrevs. reflexivity. }
    rewrite IH by (intros l' Hl'; apply Hflat; by right).
    by rewrite <-app_assoc.
Qed.

(** X10.  [_flatten_repo_info] is idempotent: applied to its own result it
    returns that result again and changes nothing, since no dictionary of a
    flattened list has a [revisions] key. *)
Theorem flatten_repo_info_idempotent (repositories : list loc) st st'
    (flattened : list loc) :
  _flatten_repo_info repositories st = (st', Ok flattened) →
  (∀ l, l ∈ flattened → ∃ d, heap st' !! l = Some d ∧ d !! "revisions" = None) ∧
  _flatten_repo_info flattened st' = (st', Ok flattened).
Proof.
  intros Hrun. pose proof (flatten_repo_info_flat _ _ _ _ Hrun) as Hflat.
  split; [done|]. by apply flatten_repo_info_of_flat.
Qed.

End FlatteningAgain.

Section RevisionsNotAList.
Context {World : Type} `{!Galaxy World}.
Implicit Types (st : state World) (d : dict) (l : loc).

Lemma length_chars (s : string) : length (chars s) = String.length s.
Proof. induction s as [|c s IH]; simpl; by rewrite ?IH. Qed.

(** X11.  [_flatten_repo_info] on a tool whose [revisions] is not a list.  A
    string is run through character by character: the result has one entry
    for every character of the string, each of them the tool's own
    dictionary, which ends with the characters set as [changeset_revision]
    in turn.  With [None] the loop raises [TypeError], after [revisions] has
    been removed from the dictionary. *)
Theorem flatten_repo_info_revisions_not_a_list l d st :
  heap st !! l = Some d →
  (∀ s, d !! "revisions" = Some (VStr s) →
     _flatten_repo_info [l] st
     = (State (<[l := foldl (λ d c, <["changeset_revision" := VStr c]> d)
                            (delete "revisions" d) (chars s)]> (heap st))
              (world st) (calls st),
        Ok (replicate (String.length s) l))) ∧
  (d !! "revisions" = Some VNone →
     _flatten_repo_info [l] st
     = (State (<[l := delete "revisions" d]> (heap st)) (world st) (calls st),
        Raise TypeError)).
Proof.
  intros Hd.
  assert (l < length (heap st))%nat as Hlt by by eapply lookup_lt_Some.
  split.
  - intros s Hrevs. unfold _flatten_repo_info. simpl.
    erewrite run_bind_ok; [reflexivity|].
    erewrite run_bind_ok by (by apply deref_ok). rewrite Hrevs.
    erewrite run_bind_ok by (by eapply store_ok).
    erewrite run_bind_ok by reflexivity.
    rewrite (flatten_revisions_loop _ _ (delete "revisions" d))
      by (simpl; by apply list_lookup_insert_eq).
    simpl. by rewrite list_insert_insert_eq, length_chars.
  - intros Hrevs. unfold _flatten_repo_info. simpl.
    erewrite run_bind_raise; [reflexivity|].
    erewrite run_bind_ok by (by apply deref_ok). rewrite Hrevs.
    erewrite run_bind_ok by (by eapply store_ok).
    by erewrite run_bind_raise by reflexivity.
Qed.

End RevisionsNotAList.

(** ** The further properties on concrete inputs *)

Lemma the_same_repository_modulo_format_witness :
  the_same_repository record_plain_url record_a = Ok true.
Proof.
  refine (proj1 (the_same_repository_modulo_format record_plain_url record_a
                   "toolshed.g2.bx.psu.edu" _ _ _ _ _)).
  all: vm_compute; reflexivity.
Defined.

Lemma complete_repo_information_result_witness :
  ∃ c, heap (complete_repo_information 0%nat toolshed true unknown_state).1
       = heap unknown_state ++ [c].
Proof.
  destruct (complete_repo_information_result 0%nat toolshed true unknown_state
              (complete_repo_information 0%nat toolshed true unknown_state).1 1%nat)
    as (t & c & u & _ & _ & Hheap & _).
  - vm_compute. reflexivity.
  - by exists c.
Defined.

Lemma complete_repo_information_missing_key_witness :
  complete_repo_information 0%nat toolshed true (start_state [no_name] quiet)
    = (start_state [no_name] quiet, Raise (KeyError "name")).
Proof.
  refine (proj1 (complete_repo_information_missing_key 0%nat toolshed true
                   (start_state [no_name] quiet) no_name _) _).
  - reflexivity.
  - vm_compute. reflexivity.
Defined.

Lemma complete_repo_information_section_rule_witness :
  ¬ ∃ message,
      complete_repo_information 0%nat toolshed true
        (start_state [data_manager_tool] quiet)
      = (start_state [data_manager_tool] quiet, Raise (KeyError message)).
Proof.
  destruct (complete_repo_information_section_rule 0%nat toolshed true
              (start_state [data_manager_tool] quiet) data_manager_tool
              "data_manager_fetch") as [[Hraises _] _].
  - reflexivity.
  - vm_compute. reflexivity.
  - vm_compute. by eexists.
  - intros Hex. apply Hraises in Hex as (_ & _ & _ & Hdm).
    vm_compute in Hdm. discriminate.
Defined.

Lemma get_changeset_revisions_asks_when_needed_witness :
  get_changeset_revisions 0%nat false (start_state [wanted] quiet)
    = (start_state [wanted] quiet, Ok (Some 0%nat)).
Proof.
  refine (proj1 (get_changeset_revisions_asks_when_needed 0%nat false
                   (start_state [wanted] quiet) wanted _ _ _ _) _).
  - reflexivity.
  - vm_compute. by eexists.
  - vm_compute. by eexists.
  - vm_compute. by eexists.
  - split; [vm_compute; discriminate|reflexivity].
Defined.

Lemma get_changeset_revisions_takes_last_witness :
  ∃ st', get_changeset_revisions 0%nat false
           (start_state [unresolved] two_revisions_world)
         = (st', Ok (Some 0%nat)) ∧
         heap st' = [<["changeset_revision" := VStr "r2"]> unresolved].
Proof.
  destruct (get_changeset_revisions_takes_last 0%nat false
              (start_state [unresolved] two_revisions_world) unresolved
              (VStr toolshed) (VStr "x") (VStr "o") ["r1"] "r2")
    as (st' & Hrun & Hheap & _).
  - reflexivity.
  - vm_compute. reflexivity.
  - vm_compute. reflexivity.
  - vm_compute. reflexivity.
  - left. vm_compute. reflexivity.
  - vm_compute. reflexivity.
  - exists st'. by split.
Defined.

Lemma install_repository_revision_twice_witness :
  install_repository_revision 0%nat false
      (install_repository_revision 0%nat false duplicate_state).1
    = ((install_repository_revision 0%nat false duplicate_state).1,
       Raise (KeyError "tool_panel_section_label")).
Proof.
  refine (install_repository_revision_twice 0%nat false false wanted
            duplicate_state _
            (install_repository_revision 0%nat false duplicate_state).2 _ _ _).
  - reflexivity.
  - vm_compute. by eexists.
  - by destruct (install_repository_revision 0%nat false duplicate_state).
Defined.

Lemma flatten_repo_info_idempotent_witness :
  _flatten_repo_info [0%nat; 0%nat]
      (_flatten_repo_info [0%nat] (start_state [two_revisions] quiet)).1
    = ((_flatten_repo_info [0%nat] (start_state [two_revisions] quiet)).1,
       Ok [0%nat; 0%nat]).
Proof.
  refine (proj2 (flatten_repo_info_idempotent [0%nat]
                   (start_state [two_revisions] quiet) _ [0%nat; 0%nat] _)).
  vm_compute. reflexivity.
Defined.

Lemma flatten_repo_info_revisions_not_a_list_witness :
  (_flatten_repo_info [0%nat] (start_state [string_revisions] quiet)).2
    = Ok [0%nat; 0%nat].
Proof.
  destruct (flatten_repo_info_revisions_not_a_list 0%nat string_revisions
              (start_state [string_revisions] quiet)) as [Hstring _].
  - reflexivity.
  - rewrite (Hstring "ab"); [reflexivity|]. vm_compute. reflexivity.
Defined.

(** ** The install loop, again *)

Section InstallLoopAgain.
Context {World : Type} `{!Galaxy World}.
Implicit Types (st : state World) (d : dict) (v : locals).

Lemma try_except_ConnectionError_ok {A} (body : M World A) handler st st' (a : A) :
  body st = (st', Ok a) →
  try_except_ConnectionError body handler st = (st', Ok a).
Proof. unfold try_except_ConnectionError. by intros ->. Qed.

(** An install call that returns was issued on the relabelled dictionary,
    which is in the heap afterwards. *)
Lemma install_repository_revision_returns_inv (repository : loc) log d st st' resp :
  heap st !! repository = Some d →
  install_repository_revision repository log st = (st', Ok resp) →
  ∃ label, d !! "tool_panel_section_label" = Some label ∧
           heap st' = <[repository := relabelled d label]> (heap st).
Proof.
  intros Hd Hrun. destruct (d !! "tool_panel_section_label") as [label|] eqn:Hlabel.
  - exists label. split; [done|].
    rewrite (install_repository_revision_run _ _ d label) in Hrun by done.
    cbv zeta in Hrun. by injection Hrun as <- _.
  - by rewrite (install_repository_revision_no_label _ _ d) in Hrun.
Qed.

(** X12.  When the install call of a repository returns, whatever the
    response, the turn of the loop ends normally in the state the call left:
    the counter is one higher, the skipped and errored lists are as they
    were, and the installed list has grown by the keys [name], [owner] and
    [revision] of the dictionary [log_repository_install_success] returns
    (the statement [installed_repositories += d] appends the keys of [d],
    not [d]). *)
Theorem install_step_success fuel total installation_start log
    (repository : loc) v st st1 d resp :
  heap st !! repository = Some d →
  log_repository_install_start d (S (counter v)) total installation_start log = Ok tt →
  install_repository_revision repository false st = (st1, Ok resp) →
  ∃ v' keys,
    install_step fuel total installation_start log repository v st = (st1, Ok v') ∧
    installed_repositories v' = installed_repositories v ++ keys ∧
    keys ≡ₚ ["name"; "owner"; "revision"] ∧
    skipped_repositories v' = skipped_repositories v ∧
    errored_repositories v' = errored_repositories v ∧
    counter v' = S (counter v).
Proof.
  intros Hd Hstart Hinstall.
  destruct (log_repository_install_start_inv _ _ _ _ _ Hstart)
    as (-> & [name Hname] & [owner Howner] & [revision Hrevision]).
  destruct (install_repository_revision_returns_inv _ _ _ _ _ _ Hd Hinstall)
    as (label & Hlabel & Hheap).
  assert (repository < length (heap st))%nat as Hlt by by eapply lookup_lt_Some.
  exists (Locals (installed_repositories v ++ ["name"; "owner"; "revision"])
                 (skipped_repositories v) (errored_repositories v)
                 (S (counter v)) (Some (now (world st)))),
         ["name"; "owner"; "revision"].
  split; [|done].
  rewrite (install_step_start _ _ _ _ _ _ _ d) by done.
  apply try_except_ConnectionError_ok.
  erewrite run_bind_ok by exact Hinstall.
  erewrite run_bind_ok
    by (apply deref_ok; rewrite Hheap; by apply list_lookup_insert_eq).
  erewrite run_bind_ok; last first.
  { unfold lift, log_repository_install_success, py_getitem.
    rewrite !relabelled_lookup_ne by done.
    rewrite Hname, Howner, Hrevision. reflexivity. }
  reflexivity.
Qed.

(** X13.  When the install call raises a [ConnectionError] whose body does
    not contain the duplicate-install phrase and whose message does not
    contain [504], the turn of the loop ends normally in the state the call
    left, without polling: the installed and skipped lists are as they were
    and the errored list has grown by the keys [name], [owner], [revision]
    and [error] of the dictionary [log_repository_install_error] returns. *)
Theorem install_step_connection_error fuel total installation_start log
    (repository : loc) v st st1 d e_message e_body :
  heap st !! repository = Some d →
  log_repository_install_start d (S (counter v)) total installation_start log = Ok tt →
  install_repository_revision repository false st
    = (st1, Raise (ConnectionError e_message e_body)) →
  contains default_err_msg e_body = false →
  contains "504" e_message = false →
  ∃ v' keys,
    install_step fuel total installation_start log repository v st = (st1, Ok v') ∧
    errored_repositories v' = errored_repositories v ++ keys ∧
    keys ≡ₚ ["name"; "owner"; "revision"; "error"] ∧
    installed_repositories v' = installed_repositories v ∧
    skipped_repositories v' = skipped_repositories v ∧
    counter v' = S (counter v).
Proof.
  intros Hd Hstart Hinstall Hphrase H504.
  destruct (log_repository_install_start_inv _ _ _ _ _ Hstart) as (-> & _).
  destruct (install_repository_revision_raises_inv _ _ _ _ _ _ _ Hd Hinstall)
    as (label & Hlabel & _ & Hst1).
  assert (repository < length (heap st))%nat as Hlt by by eapply lookup_lt_Some.
  exists (Locals (installed_repositories v) (skipped_repositories v)
                 (errored_repositories v ++ ["name"; "owner"; "revision"; "error"])
                 (S (counter v)) (Some (now (world st)))),
         ["name"; "owner"; "revision"; "error"].
  split; [|done].
  rewrite (install_step_start _ _ _ _ _ _ _ d) by done.
  erewrite try_except_ConnectionError_raise
    by (erewrite run_bind_raise; [reflexivity|exact Hinstall]).
  rewrite Hphrase, H504.
  erewrite run_bind_ok
    by (apply deref_ok; rewrite Hst1; simpl; by apply list_lookup_insert_eq).
  reflexivity.
Qed.

(** X14.  [install_tools] never returns: on the empty list it raises
    [ValueError], and on every other list a run that gets through the
    loops and the summary ends in the [ValueError] of [namedtuple]. *)
Theorem install_tools_never_returns fuel (tools : list loc) log force
    default_toolshed st st' (result : InstallResults) :
  install_tools fuel tools log force default_toolshed st ≠ (st', Ok result).
Proof.
  unfold install_tools. destruct tools as [|tool tools]; [done|].
  intros Hrun.
  apply run_bind_inv in Hrun as (s1 & installation_start & _ & Hrun).
  apply run_bind_inv in Hrun as (s2 & [not_installed already] & _ & Hrun).
  apply run_bind_inv in Hrun as (s3 & v & _ & Hrun).
  by apply run_bind_inv in Hrun as (s4 & [] & _ & Hrun).
Qed.

End InstallLoopAgain.

(** ** Waiting, again *)

Section WaitingAgain.
Context {World : Type} `{!Galaxy World}.
Implicit Types (st : state World) (d : dict).

Lemma wait_for_install_scan_outcome (repository : loc) d (entries : list dict) st st' r :
  heap st !! repository = Some d →
  wait_for_install_scan repository entries st = (st', r) →
  waiting_outcome r.
Proof.
  revert st. induction entries as [|e entries IH]; intros st Hd Hrun.
  - by injection Hrun as <- <-.
  - simpl in Hrun. unfold mbind, M_bind, deref, lift, py_getitem in Hrun.
    rewrite Hd in Hrun.
    destruct (d !! "name") as [name|]; [|by injection Hrun as <- <-].
    destruct (e !! "name") as [name'|]; [|by injection Hrun as <- <-].
    case_bool_decide; simpl in Hrun; [|by eapply IH].
    destruct (e !! "owner") as [owner'|]; [|by injection Hrun as <- <-].
    destruct (d !! "owner") as [owner|]; [|by injection Hrun as <- <-].
    simpl in Hrun. case_bool_decide; simpl in Hrun; [|by eapply IH].
    destruct (e !! "status") as [status|]; [|by injection Hrun as <- <-].
    repeat case_bool_decide; try by injection Hrun as <- <-.
    unfold time_sleep in Hrun. eapply IH; [|exact Hrun]. done.
Qed.

Lemma wait_for_install_poll_outcome (repository : loc) log d st st' r :
  heap st !! repository = Some d →
  wait_for_install_poll repository log st = (st', r) →
  waiting_outcome r.
Proof.
  intros Hd. unfold wait_for_install_poll, try_except_ConnectionError.
  unfold mbind at 1, M_bind at 1, call_get_repositories.
  destruct (ts_get_repositories (world st)) as [w [entries|[message body]]].
  - destruct (wait_for_install_scan repository entries _) as [st1 r1] eqn:Hscan.
    pose proof Hscan as Hpost.
    apply (wait_for_install_scan_run _ d) in Hpost as (_ & _ & _ & _ & Hconn & _); [|done].
    apply (wait_for_install_scan_outcome _ d) in Hscan; [|done].
    destruct r1 as [o|[]|a]; try done; [|by intros [= <- <-]..].
    by intros [= <- <-].
  - unfold time_sleep. by intros [= <- <-].
Qed.

Lemma wait_for_install_loop_frame (fuel : nat) (repository : loc) log timeout start d st st' r :
  heap st !! repository = Some d →
  wait_for_install_loop fuel repository log timeout start st = (st', r) →
  heap st' = heap st ∧
  (∃ evs, calls st' = calls st ++ evs ∧ Forall is_poll_event evs) ∧
  waiting_outcome r.
Proof.
  revert st. induction fuel as [|fuel IH]; intros st Hd Hrun.
  { injection Hrun as <- <-. split; [done|]. split; [|done].
    exists []. by rewrite app_nil_r. }
  simpl in Hrun. unfold mbind at 1, M_bind at 1, get_now in Hrun.
  destruct (now (world st) - start <? timeout * 1000000).
  - unfold mbind, M_bind in Hrun.
    destruct (wait_for_install_poll repository log st) as [st1 r1] eqn:Hpoll.
    pose proof (wait_for_install_poll_outcome _ _ _ _ _ _ Hd Hpoll) as Hout.
    apply (wait_for_install_poll_run _ _ d) in Hpoll
      as (Hheap & (evs & Hcalls & Hevs & _) & _ & _); [|done].
    destruct r1 as [[b|]|e|a].
    + injection Hrun as <- <-. eauto.
    + apply IH in Hrun as (Hheap' & (evs' & Hcalls' & Hevs') & Hr);
        [|by rewrite Hheap].
      split; [congruence|]. split; [|done].
      exists (evs ++ evs'). rewrite Hcalls', Hcalls, <-app_assoc.
      split; [done|]. by apply Forall_app.
    + injection Hrun as <- <-. eauto.
    + injection Hrun as <- <-. eauto.
  - injection Hrun as <- <-. split; [done|]. split; [|done].
    exists []. by rewrite app_nil_r.
Qed.

(** X15.  However [wait_for_install] ends, it has not touched a dictionary
    and the calls it made are inventory fetches and sleeps; it ends in a
    result, in the [KeyError] of a [name], [owner] or [status] that is not
    there, or with the fuel, and so never in the [ConnectionError] of a
    fetch. *)
Theorem wait_for_install_frame (fuel : nat) (repository : loc) log timeout d st st' r :
  heap st !! repository = Some d →
  wait_for_install fuel repository log timeout st = (st', r) →
  heap st' = heap st ∧
  (∃ polls, calls st' = calls st ++ polls ∧ Forall is_poll_event polls) ∧
  waiting_outcome r ∧
  ∀ message body, r ≠ Raise (ConnectionError message body).
Proof.
  intros Hd Hrun. unfold wait_for_install in Hrun.
  unfold mbind, M_bind, get_now in Hrun.
  apply (wait_for_install_loop_frame _ _ _ _ _ d) in Hrun as (Hheap & Hcalls & Hr); [|done].
  repeat (split; [done|]). intros message body ->. done.
Qed.

Lemma wait_for_install_poll_fetches (repository : loc) log d st st' r :
  heap st !! repository = Some d →
  wait_for_install_poll repository log st = (st', r) →
  ∃ answer rest, calls st' = calls st ++ EvGetRepositories answer :: rest.
Proof.
  intros Hd. unfold wait_for_install_poll, try_except_ConnectionError.
  unfold mbind at 1, M_bind at 1, call_get_repositories.
  destruct (ts_get_repositories (world st)) as [w [entries|[message body]]].
  - destruct (wait_for_install_scan repository entries _) as [st1 r1] eqn:Hscan.
    apply (wait_for_install_scan_run _ d) in Hscan
      as (_ & (sleeps & Hcalls & _) & _ & _ & Hconn & _); [|done].
    cbn [calls] in Hcalls. rewrite <-app_assoc in Hcalls.
    destruct r1 as [o|e|a].
    + intros [= <- <-]. eauto.
    + destruct e; try (intros [= <- <-]; eauto). by edestruct Hconn.
    + intros [= <- <-]. eauto.
  - unfold time_sleep. intros [= <- <-]. cbn [calls]. rewrite <-app_assoc. eauto.
Qed.

(** X16.  With a timeout that is not positive [wait_for_install] returns
    [False] at once: it fetches nothing and does not sleep.  With a positive
    timeout the first thing it does is to fetch the inventory. *)
Theorem wait_for_install_timeout (fuel : nat) (repository : loc) log timeout d st :
  heap st !! repository = Some d →
  if decide (timeout ≤ 0) then
    wait_for_install (S fuel) repository log timeout st = (st, Ok false)
  else
    ∃ answer rest,
      calls (wait_for_install (S fuel) repository log timeout st).1
        = calls st ++ EvGetRepositories answer :: rest.
Proof.
  intros Hd.
  destruct (decide (timeout ≤ 0)) as [Htimeout|Htimeout];
    unfold wait_for_install; unfold mbind at 1, M_bind at 1, get_now;
    cbn [wait_for_install_loop]; unfold mbind at 1, M_bind at 1, get_now.
  - by rewrite (proj2 (Z.ltb_ge _ _)) by lia.
  - rewrite (proj2 (Z.ltb_lt _ _)) by lia.
    unfold mbind, M_bind.
    destruct (wait_for_install_poll repository log st) as [st1 r1] eqn:Hpoll.
    pose proof (wait_for_install_poll_fetches _ _ _ _ _ _ Hd Hpoll)
      as (answer & rest & Hcalls).
    apply (wait_for_install_poll_run _ _ d) in Hpoll as (Hheap & _); [|done].
    destruct r1 as [[b|]|e|a]; [by eauto| |by eauto..].
    destruct (wait_for_install_loop fuel repository log timeout (now (world st)) st1)
      as [st2 r2] eqn:Hloop.
    apply (wait_for_install_loop_frame _ _ _ _ _ d) in Hloop
      as (_ & (evs & Hcalls' & _) & _); [|by rewrite Hheap].
    exists answer, (rest ++ evs). cbn [fst].
    by rewrite Hcalls', Hcalls, <-app_assoc.
Qed.

(** X17.  A fetched inventory in which no entry has the name and the owner
    of the repository ends the pass through the [while] loop without a
    sleep: the next fetch follows at once. *)
Theorem wait_for_install_poll_no_match (repository : loc) log d name owner
    (entries : list dict) w st :
  heap st !! repository = Some d →
  d !! "name" = Some name → d !! "owner" = Some owner →
  ts_get_repositories (world st) = (w, inl entries) →
  Forall (λ e, ∃ name', e !! "name" = Some name' ∧
               (name' ≠ name ∨ ∃ owner', e !! "owner" = Some owner' ∧ owner' ≠ owner))
         entries →
  wait_for_install_poll repository log st
    = (State (heap st) w (calls st ++ [EvGetRepositories (inl entries)]), Ok None).
Proof.
  intros Hd Hname Howner Hfetch Hentries.
  unfold wait_for_install_poll, try_except_ConnectionError.
  unfold mbind at 1, M_bind at 1, call_get_repositories. rewrite Hfetch.
  cut (∀ st0, heap st0 = heap st →
         wait_for_install_scan repository entries st0 = (st0, Ok None)).
  { intros Hscan. by rewrite Hscan. }
  clear Hfetch. intros st0 Hst0.
  induction Hentries as [|e entries (name' & Hn & He) _ IH]; [done|].
  simpl. unfold mbind, M_bind, deref, lift, py_getitem.
  rewrite Hst0, Hd, Hname, Hn. case_bool_decide as Heq; simpl; [|done].
  destruct He as [He|(owner' & Ho & He)]; [congruence|].
  rewrite Ho, Howner. simpl. by rewrite bool_decide_false.
Qed.

End WaitingAgain.

(** ** The install loop and the waiting on concrete inputs *)

Lemma install_step_success_witness :
  ∃ st1 v', install_step 1 1 0 true 0%nat first_turn (start_state [wanted] quiet)
              = (st1, Ok v') ∧
            errored_repositories v' = [].
Proof.
  destruct (install_step_success 1 1 0 true 0%nat first_turn
              (start_state [wanted] quiet)
              (install_repository_revision 0%nat false (start_state [wanted] quiet)).1
              wanted ROther)
    as (v' & keys & Hstep & _ & _ & _ & Herrored & _).
  - reflexivity.
  - vm_compute. reflexivity.
  - vm_compute. reflexivity.
  - by eexists _, v'.
Defined.

Lemma install_step_connection_error_witness :
  ∃ st1 v', install_step 1 1 0 true 0%nat first_turn (start_state [wanted] refused_world)
              = (st1, Ok v') ∧
            installed_repositories v' = [].
Proof.
  destruct (install_step_connection_error 1 1 0 true 0%nat first_turn
              (start_state [wanted] refused_world)
              (install_repository_revision 0%nat false
                 (start_state [wanted] refused_world)).1
              wanted "500 Internal Server Error" "no such repository")
    as (v' & keys & Hstep & _ & _ & Hinstalled & _).
  - reflexivity.
  - vm_compute. reflexivity.
  - vm_compute. reflexivity.
  - vm_compute. reflexivity.
  - vm_compute. reflexivity.
  - by eexists _, v'.
Defined.

Lemma wait_for_install_frame_witness :
  heap (wait_for_install 3 0%nat true 3600 Steady.steady_state).1 = [wanted].
Proof.
  apply (wait_for_install_frame 3 0%nat true 3600 wanted Steady.steady_state
           (wait_for_install 3 0%nat true 3600 Steady.steady_state).1
           (wait_for_install 3 0%nat true 3600 Steady.steady_state).2).
  - reflexivity.
  - vm_compute. reflexivity.
Defined.

Lemma wait_for_install_timeout_witness :
  wait_for_install 1 0%nat true 0 Steady.steady_state = (Steady.steady_state, Ok false).
Proof.
  exact (wait_for_install_timeout 0 0%nat true 0 wanted Steady.steady_state eq_refl).
Defined.

Lemma wait_for_install_poll_no_match_witness :
  (wait_for_install_poll 0%nat true (start_state [wanted] other_inventory_world)).2
    = Ok None.
Proof.
  erewrite (wait_for_install_poll_no_match 0%nat true wanted (VStr "x") (VStr "o")
              other_inventory).
  - reflexivity.
  - reflexivity.
  - reflexivity.
  - reflexivity.
  - reflexivity.
  - repeat constructor.
    + exists (VStr "y"). split; [reflexivity|]. left. discriminate.
    + exists (VStr "x"). split; [reflexivity|]. right.
      exists (VStr "p"). split; [reflexivity|discriminate].
Defined.

(** ** The two loops *)

Section Loops.
Context {World : Type} `{!Galaxy World}.
Implicit Types (st : state World) (d : dict) (v : locals).

(** The skip loop makes no call and changes no dictionary. *)
Lemma skip_step_state total log (skipped_repo : loc) v st st' r :
  skip_step total log skipped_repo v st = (st', r) → st' = st.
Proof.
  unfold skip_step, mbind, M_bind, deref, lift.
  destruct (heap st !! skipped_repo) as [d|]; [|by intros [= <- _]].
  destruct (log_repository_install_skip _ _ _ _); by intros [= <- _].
Qed.

Lemma skip_loop_state total log (already : list loc) v st st' r :
  for_each already (skip_step total log) v st = (st', r) → st' = st.
Proof.
  revert v st. induction already as [|x xs IH]; intros v st; [by intros [= <- _]|].
  simpl. unfold mbind, M_bind.
  destruct (skip_step total log x v st) as [st1 r1] eqn:Hstep.
  apply skip_step_state in Hstep as ->.
  destruct r1; [by apply IH|by intros [= <- _]..].
Qed.

(** Without a logger a turn of the install loop ends before the install
    call. *)
Lemma install_step_no_logger fuel total installation_start (repository : loc) v st :
  ∃ r, install_step fuel total installation_start false repository v st = (st, r) ∧
       ∀ v', r ≠ Ok v'.
Proof.
  unfold install_step, mbind, M_bind, get_now, deref, lift.
  destruct (heap st !! repository) as [d|]; simpl; eauto.
Qed.

(** A repository the logging helpers can describe. *)
Local Abbreviation described st repo :=
  (∃ d, heap st !! repo = Some d ∧ is_Some (d !! "name") ∧
        is_Some (d !! "owner") ∧ is_Some (d !! "changeset_revision")).

Lemma skip_loop_run total log (already : list loc) v st :
  (∀ repo, repo ∈ already → described st repo) →
  for_each already (skip_step total log) v st
    = (st, Ok (Locals (installed_repositories v)
                      (skipped_repositories v ++
                         mjoin (replicate (length already)
                                  ["name"; "owner"; "changeset_revision"]))
                      (errored_repositories v)
                      (counter v + length already) (start v))).
Proof.
  revert v. induction already as [|x xs IH]; intros v Hal.
  - simpl. rewrite app_nil_r, Nat.add_0_r. by destruct v.
  - destruct (Hal x) as (d & Hd & [n Hn] & [o Ho] & [c Hc]); [set_solver|].
    simpl. unfold mbind at 1, M_bind at 1.
    unfold skip_step at 1, mbind, M_bind, deref, lift, log_repository_install_skip,
      py_getitem.
    rewrite Hd, Hn, Ho, Hc. destruct log; simpl.
    all: rewrite IH by (intros repo Hrepo; apply Hal; set_solver); simpl.
    all: by rewrite <-!app_assoc, Nat.add_succ_r.
Qed.

(** X18.  The skip loop makes no call and changes no dictionary, with or
    without a logger.  When every repository it is given has a name, an
    owner and a revision, it returns: the counter has grown by the number of
    repositories, the installed and errored lists are as they were, and the
    skipped list has grown by the three keys [name], [owner] and
    [changeset_revision] once for every repository. *)
Theorem skip_loop_result total log (already_installed_repos : list loc) v st :
  (∀ repo, repo ∈ already_installed_repos → described st repo) →
  ∃ v', for_each already_installed_repos (skip_step total log) v st = (st, Ok v') ∧
        skipped_repositories v' ≡ₚ
          skipped_repositories v ++
            mjoin (replicate (length already_installed_repos)
                     ["name"; "owner"; "changeset_revision"]) ∧
        installed_repositories v' = installed_repositories v ∧
        errored_repositories v' = errored_repositories v ∧
        counter v' = (counter v + length already_installed_repos)%nat.
Proof.
  intros Hal. eexists. split; [by apply skip_loop_run|]. done.
Qed.

(** X19.  Called without a logger, as the default [log=None] has it, the
    two loops of [install_tools] install nothing: they make no call and
    change no dictionary, and when there is a repository to install they
    end in an exception, the [AttributeError] of the first
    [log_repository_install_start] if the skip loop got through. *)
Theorem install_tools_loops_no_logger fuel total installation_start
    (not_installed_repos already_installed_repos : list loc) v st :
  not_installed_repos ≠ [] →
  ∃ r, install_tools_loops fuel total installation_start false
         not_installed_repos already_installed_repos v st = (st, r) ∧
       (∀ v', r ≠ Ok v') ∧
       ((∀ repo, repo ∈ already_installed_repos ++ not_installed_repos →
           described st repo) →
        r = Raise AttributeError).
Proof.
  intros Hne. destruct not_installed_repos as [|repository rest]; [done|clear Hne].
  unfold install_tools_loops, mbind at 1, M_bind at 1.
  destruct (for_each already_installed_repos _ v st) as [st1 r1] eqn:Hskip.
  pose proof (skip_loop_state _ _ _ _ _ _ _ Hskip) as ->.
  destruct r1 as [v1|e|a].
  - simpl. unfold mbind at 1, M_bind at 1.
    destruct (install_step_no_logger fuel total installation_start repository v1 st)
      as (r & Hstep & Hr).
    pose proof Hstep as Hstep'. rewrite Hstep.
    destruct r as [v'|e|a]; [by destruct (Hr v')|..].
    all: eexists; split; [done|]; split; [done|]; intros Hheap.
    all: destruct (Hheap repository) as (d & Hd & _); [set_solver|].
    all: revert Hstep'; unfold install_step, mbind, M_bind, get_now, deref, lift.
    all: rewrite Hd; simpl; by intros [= <-].
  - eexists. split; [done|]. split; [done|]. intros Hheap.
    rewrite skip_loop_run in Hskip by (intros repo Hrepo; apply Hheap; set_solver).
    done.
  - eexists. split; [done|]. split; [done|]. intros Hheap.
    rewrite skip_loop_run in Hskip by (intros repo Hrepo; apply Hheap; set_solver).
    done.
Qed.

End Loops.

(** ** The two loops on concrete inputs *)

Lemma wanted_described :
  ∀ repo : loc, repo ∈ [0%nat] →
    ∃ d, heap (start_state [wanted] quiet) !! repo = Some d ∧ is_Some (d !! "name") ∧
         is_Some (d !! "owner") ∧ is_Some (d !! "changeset_revision").
Proof.
  intros repo ->%list_elem_of_singleton. exists wanted.
  split; [reflexivity|]. repeat split; eexists; reflexivity.
Qed.

Lemma skip_loop_result_witness :
  ∃ v', for_each [0%nat] (skip_step 1 false) first_turn (start_state [wanted] quiet)
          = (start_state [wanted] quiet, Ok v') ∧
        counter v' = 1%nat.
Proof.
  destruct (skip_loop_result 1 false [0%nat] first_turn (start_state [wanted] quiet)
              wanted_described)
    as (v' & Hrun & _ & _ & _ & Hcounter).
  by exists v'.
Defined.

Lemma install_tools_loops_no_logger_witness :
  install_tools_loops 1 1 0 false [0%nat] [] first_turn (start_state [wanted] quiet)
    = (start_state [wanted] quiet, Raise AttributeError).
Proof.
  destruct (install_tools_loops_no_logger 1 1 0 [0%nat] [] first_turn
              (start_state [wanted] quiet))
    as (r & Hrun & _ & Hr); [discriminate|].
  rewrite Hrun, Hr; [reflexivity|]. exact wanted_described.
Defined.

(** ** The filter, again *)

Section FilterAgain.
Context {World : Type} `{!Galaxy World}.
Implicit Types (st : state World) (d : dict).

Lemma for_each_invariant_state_in {A S} (P : S → state World → Prop) (xs : list A)
    (body : A → S → M World S) (acc acc' : S) st st' :
  (∀ x a s s' a', x ∈ xs → P a s → body x a s = (s', Ok a') → P a' s') →
  P acc st → for_each xs body acc st = (st', Ok acc') → P acc' st'.
Proof.
  revert acc st. induction xs as [|x xs IH]; intros acc st Hbody Hacc Hrun.
  - by injection Hrun as <- <-.
  - simpl in Hrun. apply run_bind_inv in Hrun as (st1 & acc1 & Hx & Hrun).
    eapply IH; [|by eapply Hbody; [left|..]|done].
    intros x' a s s' a' Hx'. apply Hbody. by right.
Qed.

(** The new objects of a list comprehension over [alloc]. *)
Lemma list_comprehension_alloc (tools : list dict) st :
  list_comprehension alloc tools st
  = (State (heap st ++ tools) (world st) (calls st),
     Ok (seq (length (heap st)) (length tools))).
Proof.
  revert st. induction tools as [|t tools IH]; intros st; simpl.
  - by rewrite app_nil_r, state_eta.
  - unfold mbind at 1, M_bind at 1, alloc at 1. unfold mbind, M_bind. rewrite IH.
    cbn [heap world calls mret M_ret]. rewrite <-app_assoc, length_app. simpl.
    by rewrite Nat.add_1_r.
Qed.

(** A store above [n] leaves the first [n] dictionaries, the world and the
    call log as they are. *)
Lemma store_frame (n : nat) (l : loc) d st st' :
  (n ≤ l)%nat → store l d st = (st', Ok tt) →
  take n (heap st') = take n (heap st) ∧ world st' = world st ∧ calls st' = calls st.
Proof.
  intros Hl. unfold store. destruct (heap st !! l); [|done].
  intros [= <-]. cbn [heap world calls]. by rewrite take_insert_ge.
Qed.

(** Flattening touches the dictionaries it is given and nothing else. *)
Lemma flatten_repo_info_frame (n : nat) (repositories : list loc) st st'
    (flattened : list loc) :
  (∀ l, l ∈ repositories → (n ≤ l)%nat) →
  _flatten_repo_info repositories st = (st', Ok flattened) →
  take n (heap st') = take n (heap st) ∧ world st' = world st ∧ calls st' = calls st.
Proof.
  intros Habove. unfold _flatten_repo_info.
  apply (for_each_invariant_state_in
           (λ _ s, take n (heap s) = take n (heap st) ∧ world s = world st ∧
                   calls s = calls st)); [|done].
  intros repo_info acc s s' acc' Hin (Hheap & Hworld & Hcalls) Hbody.
  apply Habove in Hin.
  apply run_bind_inv in Hbody as (s1 & d & Hd & Hbody).
  unfold deref in Hd. destruct (heap s !! repo_info) as [d0|]; [|done].
  injection Hd as <- <-.
  destruct (d0 !! "revisions") as [revisions|].
  - apply run_bind_inv in Hbody as (s2 & [] & Hstore & Hbody).
    apply (store_frame n) in Hstore as (Hheap2 & Hworld2 & Hcalls2); [|done].
    apply run_bind_inv in Hbody as (s3 & revs & Hrevs & Hbody).
    unfold lift in Hrevs. injection Hrevs as <- _.
    revert Hbody.
    apply (for_each_invariant_state
             (λ _ s, take n (heap s) = take n (heap st) ∧ world s = world st ∧
                     calls s = calls st)); [|by rewrite Hheap2, Hworld2, Hcalls2].
    intros revision acc0 s0 s0' acc0' (Hheap0 & Hworld0 & Hcalls0) Hstep.
    apply run_bind_inv in Hstep as (s4 & d' & Hd' & Hstep).
    unfold deref in Hd'. destruct (heap s0 !! repo_info); [|done].
    injection Hd' as <- <-.
    apply run_bind_inv in Hstep as (s5 & [] & Hstore' & Hstep).
    apply (store_frame n) in Hstore' as (Hheap5 & Hworld5 & Hcalls5); [|done].
    injection Hstep as <- _. by rewrite Hheap5, Hworld5, Hcalls5.
  - by injection Hbody as <- _.
Qed.

(** One turn of the outer loop of [filter_installed_repos]. *)
Lemma filter_installed_repos_turn (repo : loc) (acc acc' : list loc * list loc) st st' :
  (installed ← installed_repos;
   for_each installed (λ installed_tool '(not_installed_repos, already_installed_repos),
     d1 ← deref installed_tool;
     d2 ← deref repo;
     same ← lift (the_same_repository d1 d2);
     if (same : bool) then mret (not_installed_repos, already_installed_repos ++ [repo])
     else mret (not_installed_repos ++ [repo], already_installed_repos))
     acc) st = (st', Ok acc') →
  take (length (heap st)) (heap st') = heap st ∧
  calls st' = calls st ++ [EvToolList (gi_tool_list (world st)).2] ∧
  world st' = (gi_tool_list (world st)).1.
Proof.
  intros Hrun. apply run_bind_inv in Hrun as (s1 & installed & Hinstalled & Hrun).
  assert (st' = s1) as ->.
  { revert Hrun. apply (for_each_invariant_state (λ _ s, s = s1)); [|done].
    intros installed_tool [ni ai] s s' [ni' ai'] -> Hstep.
    apply run_bind_inv in Hstep as (s2 & d1 & Hd1 & Hstep).
    unfold deref in Hd1. destruct (heap s1 !! installed_tool); [|done].
    injection Hd1 as <- _.
    apply run_bind_inv in Hstep as (s3 & d2 & Hd2 & Hstep).
    unfold deref in Hd2. destruct (heap s1 !! repo); [|done].
    injection Hd2 as <- _.
    apply run_bind_inv in Hstep as (s4 & same & Hsame & Hstep).
    unfold lift in Hsame. injection Hsame as <- _.
    by destruct same; injection Hstep as <- _. }
  clear Hrun. unfold installed_repos in Hinstalled.
  apply run_bind_inv in Hinstalled as (s2 & tools & Htools & Hinstalled).
  unfold call_tool_list in Htools.
  destruct (gi_tool_list (world st)) as [w tools'].
  injection Htools as <- <-.
  apply run_bind_inv in Hinstalled as (s3 & installed_tools & Halloc & Hflatten).
  rewrite list_comprehension_alloc in Halloc. injection Halloc as <- <-.
  apply (flatten_repo_info_frame (length (heap st))) in Hflatten
    as (Hheap & Hworld & Hcalls).
  - cbn [heap world calls] in *. rewrite Hcalls, Hworld.
    split; [|done]. by rewrite Hheap, take_app_length.
  - intros l Hl%elem_of_seq. cbn [heap] in Hl. lia.
Qed.

(** X20.  A call of [filter_installed_repos] that returns has fetched the
    tool list of the Galaxy instance once for every repository it was given,
    and has made no other call; the dictionaries that were there before the
    call, those of the repositories among them, are as they were. *)
Theorem filter_installed_repos_fetches (repos : list loc) st st'
    (result : list loc * list loc) :
  filter_installed_repos repos st = (st', Ok result) →
  take (length (heap st)) (heap st') = heap st ∧
  ∃ answers, calls st' = calls st ++ (EvToolList <$> answers) ∧
             length answers = length repos.
Proof.
  unfold filter_installed_repos.
  generalize (@nil loc, @nil loc). revert st.
  induction repos as [|repo repos IH]; intros st acc Hrun.
  - injection Hrun as <- _. rewrite firstn_all. split; [done|].
    exists []. by rewrite app_nil_r.
  - simpl in Hrun. apply run_bind_inv in Hrun as (s1 & acc1 & Hturn & Hrun).
    destruct acc as [ni ai].
    apply filter_installed_repos_turn in Hturn as (Hheap1 & Hcalls1 & _).
    apply IH in Hrun as (Hheap & answers & Hcalls & Hlen).
    split.
    + assert (length (heap st) ≤ length (heap s1))%nat as Hle.
      { rewrite <-Hheap1 at 1. rewrite length_take. lia. }
      transitivity (take (length (heap st)) (take (length (heap s1)) (heap st'))).
      * by rewrite take_take, Nat.min_l.
      * by rewrite Hheap.
    + exists ((gi_tool_list (world st)).2 :: answers).
      rewrite Hcalls, Hcalls1, <-app_assoc. simpl. by rewrite Hlen.
Qed.

End FilterAgain.

(** ** The filter on a concrete input *)

Lemma filter_installed_repos_fetches_witness :
  take 1 (heap (filter_installed_repos [0%nat] (start_state [wanted] one_tool_world)).1)
    = [wanted].
Proof.
  refine (proj1 (filter_installed_repos_fetches [0%nat]
                   (start_state [wanted] one_tool_world)
                   (filter_installed_repos [0%nat]
                      (start_state [wanted] one_tool_world)).1
                   ([], [0%nat]) _)).
  vm_compute. reflexivity.
Defined.
